(** * autohelper: the task scheduler (ok/task/TaskExecutor.py, ok/task/BaseTask.py)

    A shallow embedding of the scheduling core: the task flags and their
    transitions (BaseTask), the cancellation-aware sleep, the pause
    bookkeeping, scene detection and the per-cycle task dispatch
    (TaskExecutor).

    Conventions.
    - [time.time()] is the field [clock] of the world, an exact rational
      number of seconds; the constants 0.5 and 0.001 of the source are the
      rationals 1#2 and 1#1000.
    - Python objects that are shared and mutated (the tasks) live in a store,
      the list [tasks] of the world in registration order; a reference to a
      task is its index in that list.
    - Other threads (the GUI calling enable, disable, pause, start, stop)
      act while the executor thread is inside [time.sleep]: the world carries
      a [script], one list of actions per call of [time.sleep].
    - [logger.*] calls have no effect on the state and are left out;
      [communicate.*.emit] appends to the list [emitted].
    - An attribute that the constructor does not set is an [option]: [None]
      until the first assignment; reading it then raises AttributeError.
    - Scene predicates and the capture method are total functions: they do
      not raise. *)

From Stdlib Require Import QArith Lqa.
From stdpp Require Import base option list gmap strings.

Local Open Scope Q_scope.

(** ** Data *)

(** A captured image: [frame.shape[:2]] is [(height, width)]. *)
Record Frame := mkFrame {
  height : Z;
  width : Z;
  pixels : list Z
}.

(** ok.scene.Scene: an object with an identity, a name, a class (given by the
    names of the classes it is an instance of) and the predicate [detect]. *)
Record Scene := mkScene {
  scene_id : nat;
  scene_name : string;
  scene_classes : list string;
  detect : option Frame -> bool
}.

(** [a != b] on objects that define no [__eq__]: identity. *)
Definition scene_ne (a b : Scene) : bool := negb (Nat.eqb (scene_id a) (scene_id b)).

Definition opt_scene_ne (a : Scene) (b : option Scene) : bool :=
  match b with
  | Some s => scene_ne a s
  | None => true
  end.

(** [isinstance(scene, scene_type)] *)
Definition isinstance (s : Scene) (scene_type : string) : bool :=
  bool_decide (scene_type ∈ scene_classes s).

Inductive InfoValue :=
| InfoInt (n : Z)
| InfoStr (s : string)
| InfoList (l : list string).

(** The fields of a BaseTask object that the scheduler and the task state
    machine read or write. [error_count] and [last_execute_time] are
    attributes that BaseTask.__init__ does not set: they are [None] until
    something assigns them. *)
Record Task := mkTask {
  name : string;
  _enabled : bool;
  _paused : bool;
  _done : bool;
  running : bool;
  error_count : option Z;
  last_execute_time : option Q;
  info : gmap string InfoValue
}.

(** The properties [enabled] and [done] of BaseTask. *)
Definition enabled (t : Task) : bool := _enabled t.
Definition done (t : Task) : bool := _done t.

Definition set_enabled (b : bool) (t : Task) : Task :=
  mkTask (name t) b (_paused t) (_done t) (running t) (error_count t)
         (last_execute_time t) (info t).
Definition set_task_paused (b : bool) (t : Task) : Task :=
  mkTask (name t) (_enabled t) b (_done t) (running t) (error_count t)
         (last_execute_time t) (info t).
Definition set_done_flag (b : bool) (t : Task) : Task :=
  mkTask (name t) (_enabled t) (_paused t) b (running t) (error_count t)
         (last_execute_time t) (info t).
Definition set_running (b : bool) (t : Task) : Task :=
  mkTask (name t) (_enabled t) (_paused t) (_done t) b (error_count t)
         (last_execute_time t) (info t).
Definition set_error_count (n : option Z) (t : Task) : Task :=
  mkTask (name t) (_enabled t) (_paused t) (_done t) (running t) n
         (last_execute_time t) (info t).
Definition set_last_execute_time (q : option Q) (t : Task) : Task :=
  mkTask (name t) (_enabled t) (_paused t) (_done t) (running t) (error_count t)
         q (info t).
Definition set_info (m : gmap string InfoValue) (t : Task) : Task :=
  mkTask (name t) (_enabled t) (_paused t) (_done t) (running t) (error_count t)
         (last_execute_time t) m.

(** The calls made on the StreamStats object, in order. *)
Inductive StatCall :=
| AddSleep (timeout : Q)
| AddFrame.

(** The fields of a TaskExecutor object. [current_task] refers to a task of
    the catalogue; the catalogue itself ([self.tasks]) is the task store of
    the world. *)
Record TaskExecutor := mkExecutor {
  current_scene : option Scene;
  last_scene : option Scene;
  frame_stats : list StatCall;
  _frame : option Frame;
  paused : bool;
  pause_start : Q;
  pause_end_time : Q;
  exit_event : bool;
  current_task : option nat;
  scenes : list Scene;
  wait_scene_timeout : Q;
  wait_until_before_delay : Q;
  wait_until_check_delay : Q
}.

Definition set_current_scene (v : option Scene) (e : TaskExecutor) : TaskExecutor :=
  mkExecutor v (last_scene e) (frame_stats e) (_frame e) (paused e) (pause_start e)
             (pause_end_time e) (exit_event e) (current_task e) (scenes e)
             (wait_scene_timeout e) (wait_until_before_delay e) (wait_until_check_delay e).
Definition set_last_scene (v : option Scene) (e : TaskExecutor) : TaskExecutor :=
  mkExecutor (current_scene e) v (frame_stats e) (_frame e) (paused e) (pause_start e)
             (pause_end_time e) (exit_event e) (current_task e) (scenes e)
             (wait_scene_timeout e) (wait_until_before_delay e) (wait_until_check_delay e).
Definition set_frame_stats (v : list StatCall) (e : TaskExecutor) : TaskExecutor :=
  mkExecutor (current_scene e) (last_scene e) v (_frame e) (paused e) (pause_start e)
             (pause_end_time e) (exit_event e) (current_task e) (scenes e)
             (wait_scene_timeout e) (wait_until_before_delay e) (wait_until_check_delay e).
Definition set_frame (v : option Frame) (e : TaskExecutor) : TaskExecutor :=
  mkExecutor (current_scene e) (last_scene e) (frame_stats e) v (paused e) (pause_start e)
             (pause_end_time e) (exit_event e) (current_task e) (scenes e)
             (wait_scene_timeout e) (wait_until_before_delay e) (wait_until_check_delay e).
Definition set_paused (v : bool) (e : TaskExecutor) : TaskExecutor :=
  mkExecutor (current_scene e) (last_scene e) (frame_stats e) (_frame e) v (pause_start e)
             (pause_end_time e) (exit_event e) (current_task e) (scenes e)
             (wait_scene_timeout e) (wait_until_before_delay e) (wait_until_check_delay e).
Definition set_pause_start (v : Q) (e : TaskExecutor) : TaskExecutor :=
  mkExecutor (current_scene e) (last_scene e) (frame_stats e) (_frame e) (paused e) v
             (pause_end_time e) (exit_event e) (current_task e) (scenes e)
             (wait_scene_timeout e) (wait_until_before_delay e) (wait_until_check_delay e).
Definition set_pause_end_time (v : Q) (e : TaskExecutor) : TaskExecutor :=
  mkExecutor (current_scene e) (last_scene e) (frame_stats e) (_frame e) (paused e)
             (pause_start e) v (exit_event e) (current_task e) (scenes e)
             (wait_scene_timeout e) (wait_until_before_delay e) (wait_until_check_delay e).
Definition set_exit_event (v : bool) (e : TaskExecutor) : TaskExecutor :=
  mkExecutor (current_scene e) (last_scene e) (frame_stats e) (_frame e) (paused e)
             (pause_start e) (pause_end_time e) v (current_task e) (scenes e)
             (wait_scene_timeout e) (wait_until_before_delay e) (wait_until_check_delay e).
Definition set_current_task (v : option nat) (e : TaskExecutor) : TaskExecutor :=
  mkExecutor (current_scene e) (last_scene e) (frame_stats e) (_frame e) (paused e)
             (pause_start e) (pause_end_time e) (exit_event e) v (scenes e)
             (wait_scene_timeout e) (wait_until_before_delay e) (wait_until_check_delay e).

(** What [communicate] emits. *)
Inductive Signal :=
| SigTask (i : nat)
| SigTasks
| SigExecutorPaused (b : bool)
| SigFrame (f : option Frame).

(** What another thread may do while the executor thread sleeps. *)
Inductive EnvAction :=
| Elapse (d : Q)
| SetCapture (b : bool)
| CallEnable (i : nat)
| CallDisable (i : nat)
| CallSetDone (i : nat)
| CallUnpause (i : nat)
| CallPause
| CallStart
| CallStop.

(** The executor, the task objects and the collaborators it talks to: the
    wall clock, [interaction.should_capture()], whether there is a capture
    method ([self.method] is truthy) and the frames its [get_frame()] will
    deliver, the other threads, and the notification sink. *)
Record World := mkWorld {
  executor : TaskExecutor;
  tasks : list Task;
  clock : Q;
  should_capture : bool;
  method : bool;
  feed : list (option Frame);
  script : list (list EnvAction);
  emitted : list Signal
}.

Definition upd_exec (f : TaskExecutor -> TaskExecutor) (w : World) : World :=
  mkWorld (f (executor w)) (tasks w) (clock w) (should_capture w) (method w)
          (feed w) (script w) (emitted w).
Definition upd_task (i : nat) (f : Task -> Task) (w : World) : World :=
  mkWorld (executor w) (alter f i (tasks w)) (clock w) (should_capture w) (method w)
          (feed w) (script w) (emitted w).
Definition set_clock (q : Q) (w : World) : World :=
  mkWorld (executor w) (tasks w) q (should_capture w) (method w)
          (feed w) (script w) (emitted w).
Definition set_should_capture (b : bool) (w : World) : World :=
  mkWorld (executor w) (tasks w) (clock w) b (method w)
          (feed w) (script w) (emitted w).
Definition set_feed (l : list (option Frame)) (w : World) : World :=
  mkWorld (executor w) (tasks w) (clock w) (should_capture w) (method w)
          l (script w) (emitted w).
Definition set_script (l : list (list EnvAction)) (w : World) : World :=
  mkWorld (executor w) (tasks w) (clock w) (should_capture w) (method w)
          (feed w) l (emitted w).
Definition emit (s : Signal) (w : World) : World :=
  mkWorld (executor w) (tasks w) (clock w) (should_capture w) (method w)
          (feed w) (script w) (emitted w ++ [s]).

(** ** BaseTask *)

(** BaseTask.get_status, on the flags of the task. *)
Definition get_status (t : Task) : string :=
  if running t then "Running"
  else if enabled t then
    if _paused t then "Paused" else "In Queue"
  else "Not Started".

(** BaseTask.info_clear *)
Definition info_clear (i : nat) (w : World) : World :=
  upd_task i (set_info ∅) w.

(** BaseTask.enable, called on the task at index [i]. *)
Definition enable (i : nat) (w : World) : World :=
  let w1 :=
    match tasks w !! i with
    | Some t =>
        if negb (_enabled t)
        then info_clear i (upd_task i (set_enabled true) w)
        else w
    | None => w
    end in
  let w2 := emit (SigTask i) w1 in
  upd_task i (set_done_flag false) w2.

(** BaseTask.disable *)
Definition disable (i : nat) (w : World) : World :=
  let w1 := upd_task i (set_enabled false) w in
  let w2 := upd_exec (set_current_task None) w1 in
  emit (SigTask i) w2.

(** BaseTask.set_done *)
Definition set_done (i : nat) (w : World) : World :=
  disable i (upd_task i (set_done_flag true) w).

(** ** TaskExecutor: pause, start, stop *)

(** TaskExecutor.pause *)
Definition pause (w : World) : World :=
  let w1 := upd_exec (set_paused true) w in
  let w2 := upd_exec (set_pause_start (clock w1)) w1 in
  let w3 := emit (SigExecutorPaused (paused (executor w2))) w2 in
  emit SigTasks w3.

(** TaskExecutor.stop *)
Definition stop (w : World) : World := upd_exec (set_exit_event true) w.

(** ** Exceptions and the executor monad *)

(** The two [except] clauses of the dispatch: the task-disabled signal, and
    any other instance of [Exception]. *)
Inductive exn :=
| TaskDisabledException
| Exception (msg : string).

(** How a call ends: it returns, it raises, or its loop is still running when
    the poll budget is used up. *)
Inductive outcome (A : Type) :=
| Return (a : A)
| Raise (e : exn)
| Diverge.
Arguments Return {A} a.
Arguments Raise {A} e.
Arguments Diverge {A}.

Definition M (A : Type) : Type := World -> outcome A * World.

Definition ret {A} (a : A) : M A := fun w => (Return a, w).

Definition bind {A B} (m : M A) (k : A -> M B) : M B :=
  fun w =>
    match m w with
    | (Return a, w') => k a w'
    | (Raise e, w') => (Raise e, w')
    | (Diverge, w') => (Diverge, w')
    end.

Notation "'let*' x ':=' m 'in' k" := (bind m (fun x => k))
  (at level 10, x name, m at level 200, k at level 200, only parsing).

(** A state change that cannot fail. *)
Definition lift (f : World -> World) : M unit := fun w => (Return tt, f w).

(** [a > b] on times. *)
Definition Qgtb (a b : Q) : bool := negb (Qle_bool a b).

(** TaskExecutor.reset_scene *)
Definition reset_scene (e : TaskExecutor) : TaskExecutor :=
  let e1 := set_frame None e in
  let e2 := set_last_scene (current_scene e1) e1 in
  set_current_scene None e2.

(** TaskExecutor.latest_scene: [self.current_scene or self.last_scene] *)
Definition latest_scene (e : TaskExecutor) : option Scene :=
  match current_scene e with
  | Some s => Some s
  | None => last_scene e
  end.

(** The [for scene in self.scenes] loop of detect_scene. It returns the scene
    it selects together with the identities of the scenes whose [detect] it
    called, in order. *)
Fixpoint scan_scenes (scene_type : option string) (latest : option Scene)
    (frame : option Frame) (l : list Scene) : option Scene * list nat :=
  match l with
  | [] => (None, [])
  | scene :: rest =>
      if match scene_type with
         | Some ty => negb (isinstance scene ty)
         | None => false
         end
      then scan_scenes scene_type latest frame rest
      else if opt_scene_ne scene latest then
        if detect scene frame then (Some scene, [scene_id scene])
        else
          let '(r, calls) := scan_scenes scene_type latest frame rest in
          (r, scene_id scene :: calls)
      else scan_scenes scene_type latest frame rest
  end.

(** The scenes the scan looks at: those that pass the type filter, if there is
    one, and are not the scene just re-checked. *)
Definition eligible (scene_type : option string) (latest : option Scene)
    (scene : Scene) : bool :=
  match scene_type with
  | Some ty => isinstance scene ty
  | None => true
  end && opt_scene_ne scene latest.

(** The part of detect_scene after the optimistic check. [calls] are the
    predicates already evaluated. *)
Definition detect_scene_scan (scene_type : option string) (latest : option Scene)
    (calls : list nat) (e : TaskExecutor) : (option Scene * list nat) * TaskExecutor :=
  match scan_scenes scene_type latest (_frame e) (scenes e) with
  | (Some scene, calls') =>
      ((Some scene, calls ++ calls'), set_current_scene (Some scene) e)
  | (None, calls') =>
      let e' := match current_scene e with
                | Some _ => set_current_scene None e
                | None => e
                end in
      ((current_scene e', calls ++ calls'), e')
  end.

(** TaskExecutor.detect_scene. The result is the returned scene, the list of
    scenes whose predicate was evaluated, and the executor afterwards. *)
Definition detect_scene (scene_type : option string) (e : TaskExecutor)
    : (option Scene * list nat) * TaskExecutor :=
  let latest := latest_scene e in
  match latest with
  | Some l =>
      if detect l (_frame e)
      then ((Some l, [scene_id l]), set_current_scene (Some l) e)
      else detect_scene_scan scene_type latest [scene_id l] e
  | None => detect_scene_scan scene_type latest [] e
  end.

(** [self.current_task and not self.current_task.enabled] *)
Definition current_task_disabled (w : World) : bool :=
  match current_task (executor w) with
  | Some i =>
      match tasks w !! i with
      | Some t => negb (enabled t)
      | None => false
      end
  | None => false
  end.

(** [method.get_frame()]: the next frame the capture method delivers. *)
Definition get_frame (w : World) : option Frame * World :=
  match feed w with
  | [] => (None, w)
  | f :: rest => (f, set_feed rest w)
  end.

(** One pass of the [while True] body of TaskExecutor.sleep up to
    [time.sleep]: [Some r] when the pass leaves the loop. *)
Definition sleep_check (w : World) : option (outcome unit) :=
  if exit_event (executor w) then Some (Return tt)
  else if current_task_disabled w then Some (Raise TaskDisabledException)
  else if negb (paused (executor w) || negb (should_capture w)) then
    let to_sleep := pause_end_time (executor w) - clock w in
    if Qle_bool to_sleep 0 then Some (Return tt) else None
  else None.

(** The polling interval of sleep, [time.sleep(0.001)]. *)
Definition poll_interval : Q := 1#1000.

(** The freshness threshold of the dispatch, [processing_time > 0.5]. *)
Definition freshness_threshold : Q := 1#2.

Section Scheduler.

(** [task.can_run()], which BaseTask does not define. *)
Variable can_run : Task -> bool.

(** The number of iterations each polling loop may take. *)
Variable fuel : nat.

(** [task.run_frame()] of the task at index [i]. *)
Variable run_frame : nat -> M unit.

(** TaskExecutor.start *)
Definition start (w : World) : bool * World :=
  if negb (existsb can_run (tasks w)) then (false, w)
  else
    let w1 := upd_exec (fun e =>
                set_pause_end_time (pause_end_time e + (pause_start e - clock w)) e) w in
    let w2 := upd_exec (set_paused false) w1 in
    let w3 := emit (SigExecutorPaused (paused (executor w2))) w2 in
    (true, emit SigTasks w3).

(** BaseTask.unpause *)
Definition unpause (i : nat) (w : World) : World :=
  let w1 := upd_task i (set_task_paused false) w in
  let w2 := snd (start w1) in
  emit (SigTask i) w2.

Definition apply_action (a : EnvAction) (w : World) : World :=
  match a with
  | Elapse d => set_clock (clock w + d) w
  | SetCapture b => set_should_capture b w
  | CallEnable i => enable i w
  | CallDisable i => disable i w
  | CallSetDone i => set_done i w
  | CallUnpause i => unpause i w
  | CallPause => pause w
  | CallStart => snd (start w)
  | CallStop => stop w
  end.

(** [time.sleep(d)]: the clock advances by [d], and the other threads do what
    the script says for this call. *)
Definition time_sleep (d : Q) (w : World) : World :=
  let w1 := set_clock (clock w + d) w in
  match script w1 with
  | [] => w1
  | acts :: rest => foldl (fun w' a => apply_action a w') (set_script rest w1) acts
  end.

(** The [while True] loop of TaskExecutor.sleep. *)
Fixpoint sleep_loop (n : nat) (w : World) : outcome unit * World :=
  match sleep_check w with
  | Some r => (r, w)
  | None =>
      match n with
      | O => (Diverge, w)
      | S n' => sleep_loop n' (time_sleep poll_interval w)
      end
  end.

(** The two statements of TaskExecutor.sleep before its loop. *)
Definition sleep_enter (timeout : Q) (w : World) : World :=
  let w1 := upd_exec (fun e => set_frame_stats (frame_stats e ++ [AddSleep timeout]) e) w in
  upd_exec (set_pause_end_time (clock w1 + timeout)) w1.

(** TaskExecutor.sleep *)
Definition sleep (timeout : Q) : M unit :=
  fun w => sleep_loop fuel (sleep_enter timeout w).

(** The capture attempt at the head of the loop of next_frame: [Some r] when
    next_frame returns [r] from it. *)
Definition try_capture (w : World) : option (option Frame) * World :=
  if method w && should_capture w then
    let '(f, w1) := get_frame w in
    let w2 := upd_exec (set_frame f) w1 in
    match f with
    | Some fr =>
        let w3 := if (height fr <=? 0)%Z || (width fr <=? 0)%Z
                  then upd_exec (set_frame None) w2 else w2 in
        let w4 := emit (SigFrame (_frame (executor w3))) w3 in
        (Some (_frame (executor w4)), w4)
    | None => (None, w2)
    end
  else (None, w).

(** The [while not self.exit_event.is_set()] loop of next_frame. *)
Fixpoint next_frame_loop (n : nat) (start_time : Q) : M (option Frame) :=
  fun w =>
    if exit_event (executor w) then (Return None, w)
    else
      match try_capture w with
      | (Some r, w1) => (Return r, w1)
      | (None, w1) =>
          (let* _ := sleep poll_interval in
           fun w2 =>
             if Qgtb (clock w2 - start_time) (wait_scene_timeout (executor w2))
             then (Return None, w2)
             else match n with
                  | O => (Diverge, w2)
                  | S n' => next_frame_loop n' start_time w2
                  end) w1
      end.

(** TaskExecutor.next_frame *)
Definition next_frame : M (option Frame) :=
  fun w =>
    let w1 := upd_exec reset_scene w in
    next_frame_loop fuel (clock w1) w1.

(** TaskExecutor.add_frame_stats. The signals frame_time, fps and scene that
    it emits when the mean is positive are computed by StreamStats, which
    is outside these sources; they write no field of the executor or of a
    task and are not recorded. *)
Definition add_frame_stats (w : World) : World :=
  upd_exec (fun e => set_frame_stats (frame_stats e ++ [AddFrame]) e) w.

(** Line 167 of execute: [task.done or not task.enabled]. *)
Definition skipped (task : Task) : bool := done task || negb (enabled task).

(** Lines 169-171 of execute: the task becomes the current task. *)
Definition begin_task (i : nat) (start_time : Q) (w : World) : World :=
  let w1 := upd_exec (set_current_task (Some i)) w in
  let w2 := upd_task i (set_running true) w1 in
  upd_task i (set_last_execute_time (Some start_time)) w2.

(** [task.error_count += 1] (line 180) raises AttributeError on a task whose
    [error_count] was never set: [handler_raises i r w] says that the hook
    ended with an exception other than the task-disabled signal and that the
    except clause fails on this statement. *)
Definition handler_raises (i : nat) (r : outcome unit) (w : World) : bool :=
  match r, tasks w !! i with
  | Raise (Exception _), Some t =>
      match error_count t with
      | None => true
      | Some _ => false
      end
  | _, _ => false
  end.

(** Lines 174-182 of execute when the except clause completes: the two
    [except] clauses and the statements after the [try]. [r] is how
    [task.run_frame()] ended. *)
Definition end_task (i : nat) (r : outcome unit) (w : World) : World :=
  let w1 := match r with
            | Raise (Exception _) =>
                upd_task i (fun t =>
                  set_error_count ((fun n => (n + 1)%Z) <$> error_count t) t) w
            | _ => w
            end in
  let w2 := upd_exec (set_current_task None) w1 in
  upd_task i (set_running false) w2.

(** Lines 183-189 of execute: the freshness check after a task. It returns
    the baseline [start] for the tasks that follow. *)
Definition refresh (start_time : Q) : M Q :=
  fun w =>
    let processing_time := clock w - start_time in
    if Qgtb processing_time freshness_threshold then
      (let* _ := next_frame in fun w' => (Return (clock w'), w')) w
    else (Return start_time, w).

(** The body of the [for index, task in enumerate(self.tasks)] loop. The
    locals [start] and [task_executed] are threaded through. An exception
    raised inside the except clause leaves the loop and execute. *)
Definition dispatch_task (i : nat) (st : Q * nat) : M (Q * nat) :=
  fun w =>
    let '(start_time, task_executed) := st in
    match tasks w !! i with
    | None => (Return st, w)
    | Some task =>
        if skipped task then (Return st, w)
        else
          let w1 := begin_task i start_time w in
          match run_frame i w1 with
          | (Diverge, w2) => (Diverge, w2)
          | (r, w2) =>
              if handler_raises i r w2
              then (Raise (Exception "AttributeError"), w2)
              else
                let w3 := end_task i r w2 in
                (let* start' := refresh start_time in
                 ret (start', S task_executed)) w3
          end
    end.

(** The [for] loop of execute over the indices [idxs] of the catalogue. *)
Fixpoint dispatch_tasks (idxs : list nat) (st : Q * nat) : M (Q * nat) :=
  match idxs with
  | [] => ret st
  | i :: rest => let* st' := dispatch_task i st in dispatch_tasks rest st'
  end.

(** [begins idxs st w j stj wj]: in the loop over [idxs] entered with the
    locals [st] in the world [w], the task [j] is handed to its hook with the
    locals [stj] in the world [wj]. *)
Inductive begins : list nat -> Q * nat -> World -> nat -> Q * nat -> World -> Prop :=
| begins_here i rest st w task :
    tasks w !! i = Some task -> skipped task = false ->
    begins (i :: rest) st w i st w
| begins_later i rest st w st' w' j stj wj :
    dispatch_task i st w = (Return st', w') ->
    begins rest st' w' j stj wj ->
    begins (i :: rest) st w j stj wj.

(** One pass of the [while] loop of execute. *)
Definition execute_cycle : M unit :=
  let* f := next_frame in
  fun w =>
    let w1 := upd_exec (set_frame f) w in
    let start_time := clock w1 in
    match _frame (executor w1) with
    | Some _ =>
        let w2 := upd_exec (fun e => snd (detect_scene None e)) w1 in
        (let* _ := dispatch_tasks (seq 0 (length (tasks w2))) (start_time, O) in
         let* _ := lift add_frame_stats in
         sleep poll_interval) w2
    | None => (Return tt, w1)
    end.

(** TaskExecutor.execute, for at most [n] cycles. *)
Fixpoint execute (n : nat) : M unit :=
  fun w =>
    if exit_event (executor w) then (Return tt, w)
    else match n with
         | O => (Diverge, w)
         | S n' => (let* _ := execute_cycle in execute n') w
         end.

(** ** TaskExecutor: the frame property, wait_condition and wait_scene *)

(** The property [frame]: the frame at hand, or a new one. *)
Definition frame : M (option Frame) :=
  fun w =>
    match _frame (executor w) with
    | None => next_frame w
    | Some f => (Return (Some f), w)
    end.

(** [pre_action()] or [post_action()], when it is not [None]. *)
Definition run_action (a : option (M unit)) : M unit :=
  match a with
  | Some act => act
  | None => ret tt
  end.

(** [self.sleep(self.wait_until_check_delay)] *)
Definition sleep_check_delay : M unit :=
  fun w => sleep (wait_until_check_delay (executor w)) w.

(** One pass of the [while] body of wait_condition up to the timeout test
    (lines 133-146): [Some r] when wait_condition returns [r] from it. The
    result of [condition()] is [Some r] when it is truthy. The string that
    list_or_obj_to_str builds from it goes to the log only. *)
Definition wait_attempt {A} (condition : M (option A))
    (pre_action post_action : option (M unit)) : M (option A) :=
  let* _ := lift (upd_exec reset_scene) in
  let* _ := run_action pre_action in
  let* f := next_frame in
  let* _ := lift (upd_exec (set_frame f)) in
  let* found :=
    match f with
    | Some _ =>
        let* result := condition in
        let* _ := lift add_frame_stats in
        match result with
        | Some r => let* _ := sleep_check_delay in ret (Some r)
        | None => ret None
        end
    | None => ret None
    end in
  match found with
  | Some r => ret (Some r)
  | None => let* _ := run_action post_action in ret None
  end.

(** The [while not self.exit_event.is_set()] loop of wait_condition. *)
Fixpoint wait_condition_loop {A} (n : nat) (condition : M (option A))
    (start_time time_out : Q) (pre_action post_action : option (M unit))
    : M (option A) :=
  fun w =>
    if exit_event (executor w) then (Return None, w)
    else
      (let* found := wait_attempt condition pre_action post_action in
       match found with
       | Some r => ret (Some r)
       | None =>
           fun w1 =>
             if Qgtb (clock w1 - start_time) time_out then (Return None, w1)
             else
               (let* _ := sleep (1#100) in
                match n with
                | O => fun w2 => (Diverge, w2)
                | S n' => wait_condition_loop n' condition start_time time_out
                                              pre_action post_action
                end) w1
       end) w.

(** TaskExecutor.wait_condition *)
Definition wait_condition {A} (condition : M (option A)) (time_out : Q)
    (pre_action post_action : option (M unit)) : M (option A) :=
  let* _ := (fun w => sleep (wait_until_before_delay (executor w)) w) in
  fun w =>
    let start_time := clock w in
    let time_out' := if Qeq_bool time_out 0
                     then wait_scene_timeout (executor w) else time_out in
    wait_condition_loop fuel condition start_time time_out' pre_action post_action w.

(** [lambda: self.detect_scene(scene_type)] *)
Definition detect_scene_call (scene_type : option string) : M (option Scene) :=
  fun w =>
    let '((r, _), e') := detect_scene scene_type (executor w) in
    (Return r, upd_exec (fun _ => e') w).

(** TaskExecutor.wait_scene *)
Definition wait_scene (scene_type : option string) (time_out : Q)
    (pre_action post_action : option (M unit)) : M (option Scene) :=
  wait_condition (detect_scene_call scene_type) time_out pre_action post_action.

(** ** BaseTask: the info mapping

    [self.info] is an InfoDict, used through the operations of a dict:
    [get], assignment to a key and [clear]. The methods are called on the
    task at index [i]; a call on an index outside the store does nothing. *)

(** The argument [item] of info_add_to_list: one value, or a list of them. *)
Inductive InfoItem :=
| OneItem (s : string)
| ManyItems (l : list string).

(** [self.info.get(key, default)] *)
Definition info_get (key : string) (dflt : InfoValue) (self : Task) : InfoValue :=
  default dflt (info self !! key).

(** BaseTask.info_set *)
Definition info_set (i : nat) (key : string) (value : InfoValue) (w : World) : World :=
  upd_task i (fun self => set_info (<[key := value]> (info self)) self) w.

(** BaseTask.info_incr. [value += by] raises TypeError when the value under
    [key] is a string or a list. *)
Definition info_incr (i : nat) (key : string) (by_ : Z) : M unit :=
  fun w =>
    match tasks w !! i with
    | None => (Return tt, w)
    | Some self =>
        match info_get key (InfoInt 0) self with
        | InfoInt value => (Return tt, info_set i key (InfoInt (value + by_)) w)
        | _ => (Raise (Exception "TypeError"), w)
        end
    end.

(** BaseTask.info_add *)
Definition info_add (i : nat) (key : string) (count : Z) : M unit :=
  fun w =>
    match tasks w !! i with
    | None => (Return tt, w)
    | Some self =>
        match info_get key (InfoInt 0) self with
        | InfoInt value => (Return tt, info_set i key (InfoInt (value + count)) w)
        | _ => (Raise (Exception "TypeError"), w)
        end
    end.

(** BaseTask.info_add_to_list. On a value that is not a list [value += item]
    raises TypeError and [value.append(item)] raises AttributeError. *)
Definition info_add_to_list (i : nat) (key : string) (item : InfoItem) : M unit :=
  fun w =>
    match tasks w !! i with
    | None => (Return tt, w)
    | Some self =>
        match info_get key (InfoList []) self, item with
        | InfoList value, ManyItems l =>
            (Return tt, info_set i key (InfoList (value ++ l)) w)
        | InfoList value, OneItem x =>
            (Return tt, info_set i key (InfoList (value ++ [x])) w)
        | _, ManyItems _ => (Raise (Exception "TypeError"), w)
        | _, OneItem _ => (Raise (Exception "AttributeError"), w)
        end
    end.

(** The values that [item] adds to the list. *)
Definition items_of (item : InfoItem) : list string :=
  match item with
  | OneItem x => [x]
  | ManyItems l => l
  end.

(** The fields of the executor that hold scenes. *)
Definition scene_fields (e : TaskExecutor) : option Scene * option Scene * list Scene :=
  (current_scene e, last_scene e, scenes e).



(** The world has no script left: no other thread acts any more. *)
Definition quiescent (w : World) : Prop := script w = [].

(** Nothing keeps a sleep from returning once its wake time has passed. *)
Definition awake (w : World) : Prop :=
  exit_event (executor w) = false /\ current_task_disabled w = false /\
  paused (executor w) = false /\ should_capture w = true.

(** A pause or a refused capture holds every sleep, and nothing ends one. *)
Definition held (w : World) : Prop :=
  exit_event (executor w) = false /\ current_task_disabled w = false /\
  (paused (executor w) = true \/ should_capture w = false).

(** ** The operations as steps

    Everything that changes the state, one operation at a time: the calls
    that the GUI thread or a running hook may make, and the statements of
    the executor thread around a hook. The test of line 167 and the writes
    of lines 169-171 are two statements of the executor thread: [StepBegin]
    is the pair with no other thread acting in between, [StepMark] is the
    writes alone, reached by a task that passed the test earlier.
    BaseTask.pause is not among the steps: it calls [executor.pause(self)]
    and [executor.is_executor_thread()], which this TaskExecutor does not
    offer. *)
Inductive Step :=
| StepCall (a : EnvAction)
| StepBegin (i : nat) (start_time : Q)
| StepMark (i : nat) (start_time : Q)
| StepEnd (i : nat) (r : outcome unit)
| StepResetScene
| StepDetectScene (scene_type : option string)
| StepCapture
| StepSleepEnter (timeout : Q)
| StepAddFrameStats.

Definition step (s : Step) (w : World) : World :=
  match s with
  | StepCall a => apply_action a w
  | StepBegin i start_time =>
      match tasks w !! i with
      | Some task => if skipped task then w else begin_task i start_time w
      | None => w
      end
  | StepMark i start_time => begin_task i start_time w
  | StepEnd i r => if handler_raises i r w then w else end_task i r w
  | StepResetScene => upd_exec reset_scene w
  | StepDetectScene scene_type => upd_exec (fun e => snd (detect_scene scene_type e)) w
  | StepCapture => snd (try_capture w)
  | StepSleepEnter timeout => sleep_enter timeout w
  | StepAddFrameStats => add_frame_stats w
  end.





(** ** Objects as their constructors leave them *)

(** BaseTask.__init__: it sets neither [error_count] nor
    [last_execute_time]. *)
Definition new_task (nm : string) : Task :=
  mkTask nm false false false false None None ∅.

(** The class attributes and the defaults of TaskExecutor.__init__. *)
Definition new_executor (scs : list Scene) : TaskExecutor :=
  mkExecutor None None [] None true 0 0 false None scs (10#1) 1 1.

Definition new_world (ts : list Task) (scs : list Scene)
    (frames : list (option Frame)) (scr : list (list EnvAction)) : World :=
  mkWorld (new_executor scs) ts 0 true true frames scr [].

(** ** Example objects *)

(** A task that was disabled while its hook was executing. *)
Definition disabled_running_task : Task :=
  mkTask "T1" false false false true None (Some 0) ∅.

Definition any_frame (f : option Frame) : bool :=
  match f with
  | Some _ => true
  | None => false
  end.

Definition menu_scene : Scene :=
  mkScene 0 "menu" ["MenuScene"; "Scene"] any_frame.

Definition battle_scene : Scene :=
  mkScene 1 "battle" ["BattleScene"; "Scene"] any_frame.

Definition blank_frame : Frame := mkFrame 2 2 [0; 0; 0; 0]%Z.

(** An executor with the catalogue [menu_scene; battle_scene], the menu scene
    current, holding a frame that both scenes match. *)
Definition menu_active_executor : TaskExecutor :=
  set_frame (Some blank_frame)
    (set_current_scene (Some menu_scene) (new_executor [menu_scene; battle_scene])).

(** Two hooks: the first task fails after a tenth of a second, every other
    task returns after six tenths. *)
Definition faulty_hooks (i : nat) : M unit :=
  fun w =>
    match i with
    | O => (Raise (Exception "boom"), set_clock (clock w + (1#10)) w)
    | S _ => (Return tt, set_clock (clock w + (6#10)) w)
    end.

(** Hooks that return after a tenth of a second. *)
Definition steady_hooks (i : nat) : M unit :=
  fun w => (Return tt, set_clock (clock w + (1#10)) w).

(** A started executor with two enabled tasks and two frames to come. *)
Definition two_task_world : World :=
  mkWorld (set_paused false (new_executor []))
          [set_enabled true (new_task "T1"); set_enabled true (new_task "T2")]
          0 true true [Some blank_frame; Some blank_frame] [] [].

(** A started executor about to sleep ten seconds: four seconds into the
    sleep the GUI pauses it, three seconds later the GUI starts it again. *)
Definition sleeping_world : World :=
  mkWorld (set_paused false (new_executor []))
          [set_enabled true (new_task "T1")]
          0 true true []
          [[Elapse (3999#1000); CallPause]; [Elapse (2999#1000); CallStart]] [].

(** Every task can run. *)
Definition always_runnable (t : Task) : bool := true.

(** The world of [two_task_world] when the hook of its first task has
    raised. *)
Definition faulted_world : World :=
  snd (faulty_hooks 0 (begin_task 0 0 two_task_world)).

(** The world of [two_task_world] when the hook of its second task has
    returned. *)
Definition late_world : World :=
  snd (faulty_hooks 1 (begin_task 1 0 two_task_world)).



(** No task can run. *)
Definition never_runnable (t : Task) : bool := false.

(** The world of [two_task_world] with a counter and a line of log noted for
    its first task. *)
Definition noted_world : World :=
  info_set 0 "Log" (InfoStr "started") (info_set 0 "count" (InfoInt 2) two_task_world).

(** A world as the constructors leave it: the executor paused, the tasks not
    enabled. *)
Definition fresh_world : World :=
  new_world [new_task "T1"; new_task "T2"] [] [] [].

(** A started executor without a capture method and with a scene timeout of
    two milliseconds. *)
Definition blind_world : World :=
  mkWorld (mkExecutor None None [] None false 0 0 false None [] (2#1000) 0 0)
          [] 0 true false [] [] [].

(** The world of [two_task_world] while capture is refused. *)
Definition minimized_world : World := set_should_capture false two_task_world.

(** A started executor with the catalogue [menu_scene; battle_scene], the
    menu scene current, no settle or confirmation delay, and one frame to
    come. *)
Definition scene_world : World :=
  mkWorld (mkExecutor (Some menu_scene) None [] None false 0 0 false None
                      [menu_scene; battle_scene] (10#1) 0 0)
          [] 0 true true [Some blank_frame] [] [].





(** The world of [two_task_world] with tasks of a class that sets
    [error_count] to 0 when it is created. *)
Definition counted_world : World :=
  upd_task 1 (set_error_count (Some 0%Z))
    (upd_task 0 (set_error_count (Some 0%Z)) two_task_world).

(** The world of [two_task_world] where the GUI stops the executor during
    the first [time.sleep]. *)
Definition stopping_world : World := set_script [[CallStop]] two_task_world.

(** * Properties *)

(** ** The task store *)

Lemma alter_fixed {A} (f : A -> A) i (l : list A) x :
  l !! i = Some x -> f x = x -> alter f i l = l.
Proof.
  intros Hl Hx. apply list_eq. intros j.
  destruct (decide (i = j)) as [->|Hij].
  - rewrite list_lookup_alter_eq, Hl. simpl. by rewrite Hx.
  - by rewrite list_lookup_alter_ne.
Qed.

Lemma alter_absent {A} (f : A -> A) i (l : list A) :
  l !! i = None -> alter f i l = l.
Proof.
  intros Hl. apply list_eq. intros j.
  destruct (decide (i = j)) as [->|Hij].
  - rewrite list_lookup_alter_eq, Hl. reflexivity.
  - by rewrite list_lookup_alter_ne.
Qed.

(** ** BaseTask.get_status *)

(** C8, as the code has it: the status is a function of the flags [running],
    [enabled] and [paused] alone; it is "Running" whenever [running] is set,
    whatever [enabled] is, "Not Started" when neither [running] nor
    [enabled] is set, and "Paused" or "In Queue" for an enabled task that is
    not running, by its [paused] flag. *)
Theorem get_status_projection :
  (forall t, running t = true -> get_status t = "Running") /\
  (forall t, running t = false -> enabled t = false -> get_status t = "Not Started") /\
  (forall t, running t = false -> enabled t = true -> _paused t = true ->
             get_status t = "Paused") /\
  (forall t, running t = false -> enabled t = true -> _paused t = false ->
             get_status t = "In Queue") /\
  (forall t1 t2, running t1 = running t2 -> enabled t1 = enabled t2 ->
                 _paused t1 = _paused t2 -> get_status t1 = get_status t2).
Proof.
  unfold get_status. repeat split.
  - intros t ->. reflexivity.
  - intros t -> ->. reflexivity.
  - intros t -> -> ->. reflexivity.
  - intros t -> -> ->. reflexivity.
  - intros t1 t2 -> -> ->. reflexivity.
Qed.

(** C8, the claim as written fails: a task with [enabled = false] whose
    [running] flag is still set reports "Running", not "Not Started". *)
Lemma get_status_disabled_running :
  enabled disabled_running_task = false /\
  get_status disabled_running_task = "Running" /\
  get_status disabled_running_task <> "Not Started".
Proof. repeat split. discriminate. Qed.

(** ** BaseTask.enable *)

Lemma enable_tasks_enabled i w t :
  tasks w !! i = Some t -> enabled t = true ->
  tasks (enable i w) = alter (set_done_flag false) i (tasks w).
Proof.
  intros Hl He. unfold enable, enabled in *. rewrite Hl, He. reflexivity.
Qed.

Lemma enable_lookup i w t :
  tasks w !! i = Some t ->
  exists t', tasks (enable i w) !! i = Some t' /\ enabled t' = true /\ done t' = false.
Proof.
  intros Hl. unfold enable. rewrite Hl.
  destruct (_enabled t) eqn:He; cbn [negb].
  - eexists. split.
    + cbn [emit tasks upd_task]. rewrite list_lookup_alter_eq, Hl. reflexivity.
    + split; [exact He | reflexivity].
  - eexists. split.
    + unfold info_clear. cbn [emit tasks upd_task].
      rewrite !list_lookup_alter_eq, Hl. reflexivity.
    + split; reflexivity.
Qed.

(** C9: a second [enable()] changes nothing of the task store: the state of
    every task after two calls is the state after one. On a task that is
    already enabled a call leaves [info] as it is and leaves [done] false. *)
Theorem enable_idempotent (i : nat) (w : World) :
  tasks (enable i (enable i w)) = tasks (enable i w) /\
  executor (enable i (enable i w)) = executor (enable i w) /\
  (forall t, tasks w !! i = Some t -> enabled t = true ->
     exists t', tasks (enable i w) !! i = Some t' /\
                info t' = info t /\ done t' = false /\ enabled t' = true).
Proof.
  split; [|split].
  - destruct (tasks w !! i) as [t|] eqn:Hl.
    + destruct (enable_lookup i w t Hl) as (t' & Hl' & He' & Hd').
      rewrite (enable_tasks_enabled i (enable i w) t' Hl' He').
      apply (alter_fixed _ _ _ t' Hl').
      unfold done in Hd'. destruct t'; cbn in *; subst; reflexivity.
    + assert (Hn : tasks (enable i w) = tasks w).
      { unfold enable. rewrite Hl. cbn [emit tasks upd_task].
        by apply alter_absent. }
      unfold enable at 1. rewrite Hn, Hl. cbn [emit tasks upd_task].
      rewrite Hn. by apply alter_absent.
  - unfold enable. destruct (tasks w !! i) as [t|];
      [destruct (negb (_enabled t))|];
      match goal with |- context [match ?x with _ => _ end] => destruct x as [?|] end;
      try match goal with |- context [if ?x then _ else _] => destruct x end;
      reflexivity.
  - intros t Hl He. rewrite (enable_tasks_enabled i w t Hl He).
    rewrite list_lookup_alter_eq, Hl. eexists. split; [reflexivity|].
    repeat split. exact He.
Qed.

(** ** BaseTask.disable *)

(** C10: [disable()] writes [None] to the executor's [current_task] whatever
    it referred to, clears [enabled] of the task it is called on, and
    changes no other field of the executor and no other task. *)
Theorem disable_clears_current_task (i : nat) (w : World) :
  current_task (executor (disable i w)) = None /\
  executor (disable i w) = set_current_task None (executor w) /\
  tasks (disable i w) !! i = set_enabled false <$> tasks w !! i /\
  (forall j, j <> i -> tasks (disable i w) !! j = tasks w !! j).
Proof.
  unfold disable. cbn [emit upd_exec upd_task executor tasks].
  repeat split.
  - apply list_lookup_alter_eq.
  - intros j Hj. apply list_lookup_alter_ne. congruence.
Qed.

(** ** TaskExecutor.detect_scene *)

Lemma eligible_false_skip ty latest frame scene rest :
  eligible ty latest scene = false ->
  scan_scenes ty latest frame (scene :: rest) = scan_scenes ty latest frame rest.
Proof.
  unfold eligible. cbn [scan_scenes]. intros He.
  destruct ty as [ty|].
  - destruct (isinstance scene ty); cbn [negb andb] in *; [|reflexivity].
    rewrite He. reflexivity.
  - cbn [andb] in He. rewrite He. reflexivity.
Qed.

Lemma eligible_true_step ty latest frame scene rest :
  eligible ty latest scene = true ->
  scan_scenes ty latest frame (scene :: rest) =
    if detect scene frame then (Some scene, [scene_id scene])
    else let '(r, calls) := scan_scenes ty latest frame rest in
         (r, scene_id scene :: calls).
Proof.
  unfold eligible. cbn [scan_scenes]. intros He.
  apply andb_true_iff in He as [Hty Hne]. rewrite Hne.
  destruct ty as [ty|]; [rewrite Hty|]; reflexivity.
Qed.

(** What the scan selects: the first eligible scene, in catalogue order, whose
    predicate holds; nothing when there is none. *)
Lemma scan_scenes_first ty latest frame l r calls :
  scan_scenes ty latest frame l = (r, calls) ->
  match r with
  | Some s =>
      exists l1 l2, l = l1 ++ s :: l2 /\
        eligible ty latest s = true /\ detect s frame = true /\
        (forall s', s' ∈ l1 -> eligible ty latest s' = true -> detect s' frame = false)
  | None =>
      forall s', s' ∈ l -> eligible ty latest s' = true -> detect s' frame = false
  end.
Proof.
  revert r calls. induction l as [|scene rest IH]; intros r calls Hscan.
  - cbn in Hscan. injection Hscan as <- <-. intros s' Hin. by apply elem_of_nil in Hin.
  - destruct (eligible ty latest scene) eqn:He.
    + rewrite (eligible_true_step _ _ _ _ _ He) in Hscan.
      destruct (detect scene frame) eqn:Hd.
      * injection Hscan as <- <-. exists [], rest. repeat split; try done.
        intros s' Hin. by apply elem_of_nil in Hin.
      * destruct (scan_scenes ty latest frame rest) as [r' calls'] eqn:Hrest.
        injection Hscan as <- <-. specialize (IH r' calls' eq_refl).
        destruct r' as [s|].
        -- destruct IH as (l1 & l2 & -> & Hes & Hds & Hpre).
           exists (scene :: l1), l2. repeat split; try done.
           intros s' Hin He'. apply elem_of_cons in Hin as [->|Hin]; [done|].
           by apply Hpre.
        -- intros s' Hin He'. apply elem_of_cons in Hin as [->|Hin]; [done|].
           by apply IH.
    + rewrite (eligible_false_skip _ _ _ _ _ He) in Hscan.
      specialize (IH r calls Hscan). destruct r as [s|].
      * destruct IH as (l1 & l2 & -> & Hes & Hds & Hpre).
        exists (scene :: l1), l2. repeat split; try done.
        intros s' Hin He'. apply elem_of_cons in Hin as [->|Hin]; [congruence|].
        by apply Hpre.
      * intros s' Hin He'. apply elem_of_cons in Hin as [->|Hin]; [congruence|].
        by apply IH.
Qed.

Lemma detect_scene_scan_current ty latest calls e r calls' e' :
  detect_scene_scan ty latest calls e = ((r, calls'), e') ->
  current_scene e' = r /\ _frame e' = _frame e /\ scenes e' = scenes e /\
  fst (scan_scenes ty latest (_frame e) (scenes e)) = r.
Proof.
  unfold detect_scene_scan.
  destruct (scan_scenes ty latest (_frame e) (scenes e)) as [[s|] c] eqn:Hscan.
  - intros [= <- <- <-]. repeat split.
  - destruct (current_scene e) eqn:Hc; intros [= <- <- <-]; repeat split; done.
Qed.

(** When the optimistic check does not apply the scan decides: the result is
    the first eligible matching scene of the catalogue, and it is also the
    new [current_scene]. *)
Lemma detect_scene_fallback ty e r calls e' :
  detect_scene ty e = ((r, calls), e') ->
  (forall l, latest_scene e = Some l -> detect l (_frame e) = false) ->
  current_scene e' = r /\
  match r with
  | Some s =>
      exists l1 l2, scenes e = l1 ++ s :: l2 /\
        eligible ty (latest_scene e) s = true /\ detect s (_frame e) = true /\
        (forall s', s' ∈ l1 -> eligible ty (latest_scene e) s' = true ->
                    detect s' (_frame e) = false)
  | None =>
      forall s', s' ∈ scenes e -> eligible ty (latest_scene e) s' = true ->
                 detect s' (_frame e) = false
  end.
Proof.
  unfold detect_scene. intros Hd Hopt.
  destruct (latest_scene e) as [l|] eqn:Hl.
  - rewrite (Hopt l eq_refl) in Hd.
    apply detect_scene_scan_current in Hd as (Hc & _ & _ & Hs).
    split; [exact Hc|].
    destruct (scan_scenes ty (Some l) (_frame e) (scenes e)) as [r' c] eqn:Hscan.
    cbn in Hs. subst r'. exact (scan_scenes_first _ _ _ _ _ _ Hscan).
  - apply detect_scene_scan_current in Hd as (Hc & _ & _ & Hs).
    split; [exact Hc|].
    destruct (scan_scenes ty None (_frame e) (scenes e)) as [r' c] eqn:Hscan.
    cbn in Hs. subst r'. exact (scan_scenes_first _ _ _ _ _ _ Hscan).
Qed.

(** C4: when the latest scene matches the frame, detect_scene returns it and
    makes it current having evaluated its predicate alone; otherwise the
    result is the first scene in registration order, other than the one just
    re-checked, whose predicate holds, and [current_scene] becomes [None]
    when there is none. *)
Theorem detect_scene_selection (e : TaskExecutor) :
  (forall ty A, latest_scene e = Some A -> detect A (_frame e) = true ->
     detect_scene ty e = ((Some A, [scene_id A]), set_current_scene (Some A) e)) /\
  (forall r calls e',
     detect_scene None e = ((r, calls), e') ->
     (forall l, latest_scene e = Some l -> detect l (_frame e) = false) ->
     current_scene e' = r /\
     match r with
     | Some s =>
         exists l1 l2, scenes e = l1 ++ s :: l2 /\
           opt_scene_ne s (latest_scene e) = true /\ detect s (_frame e) = true /\
           (forall s', s' ∈ l1 -> opt_scene_ne s' (latest_scene e) = true ->
                       detect s' (_frame e) = false)
     | None =>
         forall s', s' ∈ scenes e -> opt_scene_ne s' (latest_scene e) = true ->
                    detect s' (_frame e) = false
     end).
Proof.
  split.
  - intros ty A Hl Hd. unfold detect_scene. rewrite Hl, Hd. reflexivity.
  - intros r calls e' Hd Hopt.
    exact (detect_scene_fallback None e r calls e' Hd Hopt).
Qed.

(** The scan path honours the type filter. *)
Lemma detect_scene_fallback_filtered ty e s calls e' :
  detect_scene (Some ty) e = ((Some s, calls), e') ->
  (forall l, latest_scene e = Some l -> detect l (_frame e) = false) ->
  isinstance s ty = true.
Proof.
  intros Hd Hopt.
  destruct (detect_scene_fallback _ _ _ _ _ Hd Hopt) as (_ & l1 & l2 & _ & He & _).
  unfold eligible in He. by apply andb_true_iff in He as [He _].
Qed.

(** After two calls of reset_scene (wait_condition calls it and then
    next_frame, which calls it again) there is no latest scene, and the
    filter is honoured. *)
Lemma detect_scene_after_reset_filtered ty f e s calls e' :
  detect_scene (Some ty) (set_frame f (reset_scene (reset_scene e))) = ((Some s, calls), e') ->
  isinstance s ty = true.
Proof.
  intros Hd. apply (detect_scene_fallback_filtered _ _ _ _ _ Hd).
  intros l Hl. discriminate Hl.
Qed.

(** C7, the code at the failing input: with the menu scene current and still
    matching, a detection restricted to battle scenes returns the menu scene,
    which is not a battle scene. *)
Theorem detect_scene_filter_bypassed :
  fst (fst (detect_scene (Some "BattleScene") menu_active_executor)) = Some menu_scene /\
  isinstance menu_scene "BattleScene" = false /\
  isinstance battle_scene "BattleScene" = true.
Proof. repeat split. Qed.

(** ** TaskExecutor.sleep *)

Lemma sleep_check_exit w :
  exit_event (executor w) = true -> sleep_check w = Some (Return tt).
Proof. unfold sleep_check. intros ->. reflexivity. Qed.


Lemma sleep_check_awake w :
  exit_event (executor w) = false -> current_task_disabled w = false ->
  paused (executor w) = false -> should_capture w = true ->
  pause_end_time (executor w) <= clock w ->
  sleep_check w = Some (Return tt).
Proof.
  unfold sleep_check. intros -> -> -> -> Hle. cbn [orb negb].
  assert (Hb : Qle_bool (pause_end_time (executor w) - clock w) 0 = true).
  { apply Qle_bool_iff. lra. }
  rewrite Hb. reflexivity.
Qed.


Lemma sleep_check_raise w e :
  sleep_check w = Some (Raise e) ->
  e = TaskDisabledException /\ exit_event (executor w) = false /\
  current_task_disabled w = true.
Proof.
  unfold sleep_check.
  destruct (exit_event (executor w)); [discriminate|].
  destruct (current_task_disabled w); [by intros [= <-]|].
  destruct (negb _); [destruct (Qle_bool _ _)|]; discriminate.
Qed.


(** Between two checks lies one [time.sleep] of the polling interval. *)
Lemma sleep_loop_poll n w :
  sleep_check w = None ->
  sleep_loop (S n) w = sleep_loop n (time_sleep poll_interval w).
Proof. intros Hc. cbn [sleep_loop]. rewrite Hc. reflexivity. Qed.

Lemma sleep_loop_leaves n w r :
  sleep_check w = Some r -> sleep_loop n w = (r, w).
Proof. intros Hc. destruct n; cbn [sleep_loop]; rewrite Hc; reflexivity. Qed.


(** ** The other threads and the executor's fields *)

Lemma enable_executor i w : executor (enable i w) = executor w.
Proof.
  unfold enable. destruct (tasks w !! i) as [t|]; [destruct (negb (_enabled t))|];
    reflexivity.
Qed.

Lemma enable_feed i w : feed (enable i w) = feed w.
Proof.
  unfold enable. destruct (tasks w !! i) as [t|]; [destruct (negb (_enabled t))|];
    reflexivity.
Qed.

Lemma start_current_task w :
  current_task (executor (snd (start w))) = current_task (executor w).
Proof. unfold start. destruct (negb _); reflexivity. Qed.

Lemma start_feed w : feed (snd (start w)) = feed w.
Proof. unfold start. destruct (negb _); reflexivity. Qed.

Lemma apply_action_current_task a w :
  current_task (executor w) = None ->
  current_task (executor (apply_action a w)) = None.
Proof.
  intros Hc. destruct a; cbn [apply_action]; try exact Hc; try reflexivity.
  - by rewrite enable_executor.
  - unfold unpause. cbn [emit executor]. rewrite start_current_task. exact Hc.
  - rewrite start_current_task. exact Hc.
Qed.

Lemma apply_action_feed a w : feed (apply_action a w) = feed w.
Proof.
  destruct a; cbn [apply_action]; try reflexivity.
  - apply enable_feed.
  - unfold unpause. cbn [emit feed]. by rewrite start_feed.
  - apply start_feed.
Qed.

Lemma actions_current_task acts w :
  current_task (executor w) = None ->
  current_task (executor (foldl (fun w' a => apply_action a w') w acts)) = None.
Proof.
  revert w. induction acts as [|a acts IH]; intros w Hc; [exact Hc|].
  cbn [foldl]. apply IH. by apply apply_action_current_task.
Qed.

Lemma actions_feed acts w :
  feed (foldl (fun w' a => apply_action a w') w acts) = feed w.
Proof.
  revert w. induction acts as [|a acts IH]; intros w; [reflexivity|].
  cbn [foldl]. rewrite IH. apply apply_action_feed.
Qed.

Lemma time_sleep_current_task d w :
  current_task (executor w) = None ->
  current_task (executor (time_sleep d w)) = None.
Proof.
  intros Hc. unfold time_sleep. cbn [set_clock script].
  destruct (script w) as [|acts rest]; [exact Hc|].
  apply actions_current_task. exact Hc.
Qed.

Lemma time_sleep_feed d w : feed (time_sleep d w) = feed w.
Proof.
  unfold time_sleep. cbn [set_clock script].
  destruct (script w) as [|acts rest]; [reflexivity|].
  by rewrite actions_feed.
Qed.

Lemma no_current_task_not_disabled w :
  current_task (executor w) = None -> current_task_disabled w = false.
Proof. unfold current_task_disabled. intros ->. reflexivity. Qed.

(** With no current task the loop of sleep cannot raise, and it leaves the
    executor without a current task. *)
Lemma sleep_loop_no_current_task n w r w' :
  current_task (executor w) = None ->
  sleep_loop n w = (r, w') ->
  (forall e, r <> Raise e) /\ current_task (executor w') = None /\ feed w' = feed w.
Proof.
  revert w. induction n as [|n IH]; intros w Hc; cbn [sleep_loop];
    destruct (sleep_check w) as [r0|] eqn:Hk.
  - intros [= <- <-]. repeat split; try done. intros e ->.
    apply sleep_check_raise in Hk as (_ & _ & Hd).
    by rewrite no_current_task_not_disabled in Hd.
  - intros [= <- <-]. repeat split; done.
  - intros [= <- <-]. repeat split; try done. intros e ->.
    apply sleep_check_raise in Hk as (_ & _ & Hd).
    by rewrite no_current_task_not_disabled in Hd.
  - intros Hs. apply IH in Hs; [|by apply time_sleep_current_task].
    destruct Hs as (? & ? & Hf). repeat split; try done.
    rewrite Hf. apply time_sleep_feed.
Qed.

Lemma sleep_no_current_task timeout w r w' :
  current_task (executor w) = None ->
  sleep timeout w = (r, w') ->
  (forall e, r <> Raise e) /\ current_task (executor w') = None /\ feed w' = feed w.
Proof.
  unfold sleep. intros Hc Hs.
  by apply (sleep_loop_no_current_task fuel (sleep_enter timeout w)).
Qed.

(** ** TaskExecutor.next_frame *)

Lemma try_capture_current_task w :
  current_task (executor (snd (try_capture w))) = current_task (executor w).
Proof.
  unfold try_capture. destruct (method w && should_capture w); [|reflexivity].
  unfold get_frame. destruct (feed w) as [|[fr|] rest]; try reflexivity.
  cbn [upd_exec executor set_feed]. destruct (_ || _); reflexivity.
Qed.

(** A frame that try_capture returns is the one it stored in [_frame], and it
    was the next frame of the feed. *)
Lemma try_capture_frame w r w' :
  try_capture w = (Some r, w') ->
  _frame (executor w') = r /\
  (forall fr, r = Some fr -> exists rest, feed w = Some fr :: rest /\ feed w' = rest).
Proof.
  unfold try_capture. destruct (method w && should_capture w); [|discriminate].
  unfold get_frame. destruct (feed w) as [|[fr|] rest]; try discriminate.
  cbn [upd_exec executor set_feed].
  destruct (_ || _); cbn [upd_exec executor emit set_frame _frame feed].
  - intros [= <- <-]. split; [reflexivity|]. intros fr' [=].
  - intros [= <- <-]. split; [reflexivity|]. intros fr' [= <-]. by exists rest.
Qed.

Lemma try_capture_feed_suffix w : feed (snd (try_capture w)) `suffix_of` feed w.
Proof.
  unfold try_capture. destruct (method w && should_capture w); [|done].
  unfold get_frame. destruct (feed w) as [|[fr|] rest] eqn:Hf.
  - cbn. by rewrite Hf.
  - cbn [upd_exec executor set_feed]. destruct (_ || _); cbn; by apply suffix_cons_r.
  - cbn. by apply suffix_cons_r.
Qed.

(** The loop of next_frame, entered without a current task, does not raise
    and leaves the executor without a current task; a frame it returns is the
    value of [_frame] and comes from the feed. *)
Lemma next_frame_loop_no_current_task n start_time w r w' :
  current_task (executor w) = None ->
  next_frame_loop n start_time w = (r, w') ->
  (forall e, r <> Raise e) /\ current_task (executor w') = None /\
  (forall fr, r = Return (Some fr) ->
     _frame (executor w') = Some fr /\ Some fr ∈ feed w).
Proof.
  revert w. induction n as [|n IH]; intros w Hc Hrun; cbn [next_frame_loop] in Hrun.
  all: destruct (exit_event (executor w));
    [injection Hrun as <- <-; split; [done|]; split; [done|]; intros ? [=] |].
  all: pose proof (try_capture_current_task w) as Hc1;
    pose proof (try_capture_feed_suffix w) as Hsuf;
    destruct (try_capture w) as [[r0|] w1] eqn:Ht; cbn [snd] in Hc1, Hsuf;
    rewrite Hc in Hc1.
  1,3: injection Hrun as <- <-;
    destruct (try_capture_frame _ _ _ Ht) as [Hf Hfeed];
    split; [done|]; split; [done|]; intros fr [= ->]; split; [exact Hf|];
    destruct (Hfeed fr eq_refl) as (rest & -> & _); by left.
  all: unfold bind in Hrun;
    destruct (sleep poll_interval w1) as [[[]| e |] w2] eqn:Hs;
    destruct (sleep_no_current_task _ _ _ _ Hc1 Hs) as (Hr & Hc2 & Hfeed);
    [ | by destruct (Hr e)
      | injection Hrun as <- <-; split; [done|]; split; [done|]; intros ? [=] ].
  all: destruct (Qgtb _ _);
    [injection Hrun as <- <-; split; [done|]; split; [done|]; intros ? [=] |].
  - injection Hrun as <- <-. split; [done|]. split; [done|]. intros ? [=].
  - destruct (IH w2 Hc2 Hrun) as (Hr' & Hc' & Hfr).
    split; [done|]. split; [done|]. intros fr ->.
    destruct (Hfr fr eq_refl) as [Hf Hin]. split; [exact Hf|].
    rewrite Hfeed in Hin. destruct Hsuf as [k ->].
    apply elem_of_app. by right.
Qed.

Lemma next_frame_no_current_task w r w' :
  current_task (executor w) = None ->
  next_frame w = (r, w') ->
  (forall e, r <> Raise e) /\ current_task (executor w') = None /\
  (forall fr, r = Return (Some fr) ->
     _frame (executor w') = Some fr /\ Some fr ∈ feed w).
Proof.
  unfold next_frame. intros Hc Hn.
  exact (next_frame_loop_no_current_task fuel _ (upd_exec reset_scene w) r w' Hc Hn).
Qed.

Lemma apply_action_frame a w :
  _frame (executor (apply_action a w)) = _frame (executor w).
Proof.
  destruct a; cbn [apply_action]; try reflexivity.
  - by rewrite enable_executor.
  - unfold unpause, start. cbn [emit executor]. destruct (negb _); reflexivity.
  - unfold start. destruct (negb _); reflexivity.
Qed.

Lemma time_sleep_frame d w : _frame (executor (time_sleep d w)) = _frame (executor w).
Proof.
  unfold time_sleep. cbn [set_clock script].
  destruct (script w) as [|acts rest]; [reflexivity|].
  change (_frame (executor w)) with
    (_frame (executor (set_script rest (set_clock (clock w + d) w)))).
  generalize (set_script rest (set_clock (clock w + d) w)).
  induction acts as [|a acts IH]; intros w0; [reflexivity|].
  cbn [foldl]. rewrite IH. apply apply_action_frame.
Qed.

Lemma sleep_frame timeout w r w' :
  sleep timeout w = (r, w') -> _frame (executor w') = _frame (executor w).
Proof.
  unfold sleep.
  change (_frame (executor w)) with (_frame (executor (sleep_enter timeout w))).
  generalize (sleep_enter timeout w) as w0. generalize fuel as n.
  induction n as [|n IH]; intros w0; cbn [sleep_loop];
    destruct (sleep_check w0); try (intros [= <- <-]; reflexivity).
  intros Hs. rewrite (IH _ Hs). apply time_sleep_frame.
Qed.

Lemma try_capture_none_frame w w1 :
  _frame (executor w) = None -> try_capture w = (None, w1) ->
  _frame (executor w1) = None.
Proof.
  unfold try_capture. intros Hf. destruct (method w && should_capture w).
  - unfold get_frame. destruct (feed w) as [|[fr|] rest]; try discriminate.
    + by intros [= <-].
    + by intros [= <-].
  - by intros [= <-].
Qed.

(** next_frame returns what it leaves in [_frame]. *)
Lemma next_frame_loop_stores n start_time w f w' :
  _frame (executor w) = None ->
  next_frame_loop n start_time w = (Return f, w') ->
  _frame (executor w') = f.
Proof.
  revert w. induction n as [|n IH]; intros w Hf Hrun; cbn [next_frame_loop] in Hrun.
  all: destruct (exit_event (executor w)); [by injection Hrun as <- <-|].
  all: destruct (try_capture w) as [[r0|] w1] eqn:Ht.
  1,3: injection Hrun as <- <-; by destruct (try_capture_frame _ _ _ Ht).
  all: pose proof (try_capture_none_frame _ _ Hf Ht) as Hf1;
    unfold bind in Hrun;
    destruct (sleep poll_interval w1) as [[[]| e |] w2] eqn:Hs; try discriminate;
    pose proof (sleep_frame _ _ _ _ Hs) as Hf2; rewrite Hf1 in Hf2;
    destruct (Qgtb _ _); [by injection Hrun as <- <-|].
  - discriminate.
  - by apply (IH w2).
Qed.

Lemma next_frame_stores w f w' :
  next_frame w = (Return f, w') -> _frame (executor w') = f.
Proof.
  unfold next_frame. apply next_frame_loop_stores. reflexivity.
Qed.

(** ** The dispatch of execute *)

Lemma Qgtb_true a b : Qgtb a b = true <-> b < a.
Proof.
  unfold Qgtb. rewrite negb_true_iff. split.
  - intros Hb. apply Qnot_le_lt. intros Hle.
    apply Qle_bool_iff in Hle. congruence.
  - intros Hlt. destruct (Qle_bool a b) eqn:Hb; [|reflexivity].
    apply Qle_bool_iff in Hb. lra.
Qed.

Lemma Qgtb_false a b : Qgtb a b = false <-> a <= b.
Proof.
  unfold Qgtb. rewrite negb_false_iff. apply Qle_bool_iff.
Qed.

Lemma refresh_stale start_time w :
  freshness_threshold < clock w - start_time ->
  refresh start_time w =
    (let* _ := next_frame in fun w' => (Return (clock w'), w')) w.
Proof.
  intros Hlt. unfold refresh. apply Qgtb_true in Hlt. rewrite Hlt. reflexivity.
Qed.

Lemma refresh_fresh start_time w :
  clock w - start_time <= freshness_threshold ->
  refresh start_time w = (Return start_time, w).
Proof.
  intros Hle. unfold refresh. apply Qgtb_false in Hle. rewrite Hle. reflexivity.
Qed.

(** The freshness check, run without a current task: it does not raise, and
    the baseline it returns is at most the threshold behind the clock; when
    the threshold was exceeded, the baseline is the clock after next_frame
    and [_frame] holds nothing or a frame taken from the feed. *)
Lemma refresh_result start_time w r w' :
  current_task (executor w) = None ->
  refresh start_time w = (r, w') ->
  (forall e, r <> Raise e) /\ current_task (executor w') = None /\
  (forall s, r = Return s ->
     clock w' - s <= freshness_threshold /\
     (freshness_threshold < clock w - start_time ->
        s = clock w' /\
        forall fr, _frame (executor w') = Some fr -> Some fr ∈ feed w)).
Proof.
  intros Hc. unfold refresh.
  destruct (Qgtb (clock w - start_time) freshness_threshold) eqn:Hg.
  - unfold bind. destruct (next_frame w) as [[f| e |] w1] eqn:Hn;
      destruct (next_frame_no_current_task _ _ _ Hc Hn) as (Hr & Hc1 & Hfr);
      intros [= <- <-].
    + split; [done|]. split; [done|]. intros s [= <-].
      split; [unfold freshness_threshold; lra|]. intros _. split; [reflexivity|].
      intros fr Hfe. apply next_frame_stores in Hn. rewrite Hfe in Hn. subst f.
      by destruct (Hfr fr eq_refl).
    + by destruct (Hr e).
    + split; [done|]. split; [done|]. intros s [=].
  - intros [= <- <-]. split; [done|]. split; [done|]. intros s [= <-].
    apply Qgtb_false in Hg. split; [exact Hg|]. intros Hlt. lra.
Qed.

Lemma end_task_current_task i r w : current_task (executor (end_task i r w)) = None.
Proof. reflexivity. Qed.

Lemma dispatch_task_skip_absent i st w :
  tasks w !! i = None -> dispatch_task i st w = (Return st, w).
Proof. unfold dispatch_task. intros ->. by destruct st. Qed.

Lemma dispatch_task_skip i st w task :
  tasks w !! i = Some task -> skipped task = true ->
  dispatch_task i st w = (Return st, w).
Proof. unfold dispatch_task. intros -> ->. by destruct st. Qed.

Lemma dispatch_task_run i start_time n w task r w2 :
  tasks w !! i = Some task -> skipped task = false ->
  run_frame i (begin_task i start_time w) = (r, w2) -> r <> Diverge ->
  handler_raises i r w2 = false ->
  dispatch_task i (start_time, n) w =
    (let* start' := refresh start_time in ret (start', S n)) (end_task i r w2).
Proof.
  unfold dispatch_task. intros -> -> -> Hr ->. by destruct r.
Qed.

Lemma dispatch_task_handler_raises i start_time n w task r w2 :
  tasks w !! i = Some task -> skipped task = false ->
  run_frame i (begin_task i start_time w) = (r, w2) ->
  handler_raises i r w2 = true ->
  dispatch_task i (start_time, n) w = (Raise (Exception "AttributeError"), w2).
Proof.
  unfold dispatch_task. intros -> -> -> Hh. destruct r; [by rewrite Hh..|done].
Qed.

(** The except clauses fail on a generic exception of a task without an
    [error_count], and on nothing else. *)
Lemma handler_raises_spec i r w :
  handler_raises i r w = true <->
  exists msg t, r = Raise (Exception msg) /\ tasks w !! i = Some t /\
                error_count t = None.
Proof.
  unfold handler_raises. split.
  - destruct r as [a|[|msg]|]; try discriminate.
    destruct (tasks w !! i) as [t|]; [|discriminate].
    destruct (error_count t) eqn:He; [discriminate|]. intros _. by exists msg, t.
  - intros (msg & t & -> & -> & ->). reflexivity.
Qed.

Lemma dispatch_task_diverge i start_time n w task w2 :
  tasks w !! i = Some task -> skipped task = false ->
  run_frame i (begin_task i start_time w) = (Diverge, w2) ->
  dispatch_task i (start_time, n) w = (Diverge, w2).
Proof. unfold dispatch_task. intros -> -> ->. reflexivity. Qed.

(** What one pass of the loop body yields: the one exception that leaves it
    is the AttributeError of the except clause; when it returns, the executor
    has no current task if it had none before, and the baseline is at most
    the threshold behind the clock if it was so before. *)
Lemma dispatch_task_result i st w r w' :
  dispatch_task i st w = (r, w') ->
  (forall e, r = Raise e -> e = Exception "AttributeError") /\
  (forall st', r = Return st' ->
     (current_task (executor w) = None -> current_task (executor w') = None) /\
     (clock w - st.1 <= freshness_threshold ->
      clock w' - st'.1 <= freshness_threshold)).
Proof.
  destruct st as [start_time n]. intros Hd.
  destruct (tasks w !! i) as [task|] eqn:Hl.
  2:{ rewrite (dispatch_task_skip_absent _ _ _ Hl) in Hd. injection Hd as <- <-.
      split; [done|]. by intros st' [= <-]. }
  destruct (skipped task) eqn:Hs.
  { rewrite (dispatch_task_skip _ _ _ _ Hl Hs) in Hd. injection Hd as <- <-.
    split; [done|]. by intros st' [= <-]. }
  destruct (run_frame i (begin_task i start_time w)) as [r0 w2] eqn:Hrun.
  assert (Hcases : r0 = Diverge \/ r0 <> Diverge) by (destruct r0; auto).
  destruct Hcases as [->|Hnd].
  { rewrite (dispatch_task_diverge _ _ _ _ _ _ Hl Hs Hrun) in Hd.
    injection Hd as <- <-. split; [done|]. intros st' [=]. }
  destruct (handler_raises i r0 w2) eqn:Hh.
  { rewrite (dispatch_task_handler_raises _ _ _ _ _ _ _ Hl Hs Hrun Hh) in Hd.
    injection Hd as <- <-. split; [by intros e [= <-]|]. intros st' [=]. }
  rewrite (dispatch_task_run _ _ _ _ _ _ _ Hl Hs Hrun Hnd Hh) in Hd.
  unfold bind, ret in Hd.
  destruct (refresh start_time (end_task i r0 w2)) as [[s| e |] w3] eqn:Href;
    destruct (refresh_result _ _ _ _ (end_task_current_task i r0 w2) Href)
      as (Hr & Hc3 & Hs3);
    injection Hd as <- <-.
  - split; [done|]. intros st' [= <-]. split; [done|]. intros _.
    by destruct (Hs3 s eq_refl).
  - by destruct (Hr e).
  - split; [done|]. intros st' [=].
Qed.

(** The one exception that leaves the loop over the catalogue is the
    AttributeError of the except clause. *)
Lemma dispatch_tasks_result idxs st w r w' :
  dispatch_tasks idxs st w = (r, w') ->
  (forall e, r = Raise e -> e = Exception "AttributeError") /\
  (forall st', r = Return st' ->
     current_task (executor w) = None -> current_task (executor w') = None).
Proof.
  revert st w. induction idxs as [|i rest IH]; intros st w; cbn [dispatch_tasks].
  - unfold ret. intros [= <- <-]. split; [done|]. by intros st' _.
  - unfold bind. destruct (dispatch_task i st w) as [[st1| e |] w1] eqn:Hd;
      destruct (dispatch_task_result _ _ _ _ _ Hd) as (Hr & Hret).
    + intros Hrest. destruct (IH _ _ Hrest) as (Hr' & Hc').
      split; [done|]. intros st' -> Hc. apply (Hc' st' eq_refl).
      by apply (Hret st1 eq_refl).
    + intros [= <- <-]. split; [exact Hr|]. intros st' [=].
    + intros [= <- <-]. split; [done|]. intros st' [=].
Qed.

(** Every task handed to its hook in the loop is handed over with a baseline
    at most the threshold behind the clock, if the loop was entered so. *)
Lemma begins_fresh idxs st w j stj wj :
  clock w - st.1 <= freshness_threshold ->
  begins idxs st w j stj wj ->
  clock wj - stj.1 <= freshness_threshold.
Proof.
  intros Hfresh Hb. induction Hb as [|i rest st w st' w' j stj wj Hd Hb IH]; [done|].
  apply IH. destruct (dispatch_task_result _ _ _ _ _ Hd) as (_ & Hret).
  by apply (Hret st' eq_refl).
Qed.

(** After a task that was handed to its hook, the baseline is at most the
    threshold behind the clock, however long the hook took. *)
Lemma dispatch_task_ran_fresh i st w task st' w' :
  tasks w !! i = Some task -> skipped task = false ->
  dispatch_task i st w = (Return st', w') ->
  clock w' - st'.1 <= freshness_threshold.
Proof.
  destruct st as [start_time n]. intros Hl Hs Hd.
  destruct (run_frame i (begin_task i start_time w)) as [r0 w2] eqn:Hrun.
  assert (Hcases : r0 = Diverge \/ r0 <> Diverge) by (destruct r0; auto).
  destruct Hcases as [->|Hnd].
  { rewrite (dispatch_task_diverge _ _ _ _ _ _ Hl Hs Hrun) in Hd. discriminate. }
  destruct (handler_raises i r0 w2) eqn:Hh.
  { rewrite (dispatch_task_handler_raises _ _ _ _ _ _ _ Hl Hs Hrun Hh) in Hd.
    discriminate. }
  rewrite (dispatch_task_run _ _ _ _ _ _ _ Hl Hs Hrun Hnd Hh) in Hd.
  unfold bind, ret in Hd.
  destruct (refresh start_time (end_task i r0 w2)) as [[s| e |] w3] eqn:Href;
    try discriminate.
  destruct (refresh_result _ _ _ _ (end_task_current_task i r0 w2) Href)
    as (_ & _ & Hs3).
  injection Hd as <- <-. by destruct (Hs3 s eq_refl).
Qed.

(** C5: after a task whose hook has ended and whose except clause has not
    failed, if the clock is more than half a second past the baseline, the dispatch calls next_frame and takes the
    clock after it as the new baseline before it goes on; otherwise it goes
    on with the same baseline. Either way the next task of the cycle starts
    at most half a second past the baseline, and after a refresh [_frame]
    holds nothing or a frame the capture method delivered after the check;
    so every task handed to its hook later in the loop is at most the
    threshold past the baseline. *)
Theorem stale_frame_refreshed (i : nat) (start_time : Q) (n : nat) (w : World)
    (task : Task) (r : outcome unit) (w2 : World) :
  tasks w !! i = Some task -> skipped task = false ->
  run_frame i (begin_task i start_time w) = (r, w2) -> r <> Diverge ->
  handler_raises i r w2 = false ->
  let w3 := end_task i r w2 in
  (1#2 < clock w3 - start_time ->
     dispatch_task i (start_time, n) w =
       (let* _ := next_frame in fun w' => (Return (clock w', S n), w')) w3) /\
  (clock w3 - start_time <= 1#2 ->
     dispatch_task i (start_time, n) w = (Return (start_time, S n), w3)) /\
  (forall st' w',
     dispatch_task i (start_time, n) w = (Return st', w') ->
     clock w' - st'.1 <= 1#2 /\
     (1#2 < clock w3 - start_time ->
        st'.1 = clock w' /\
        forall fr, _frame (executor w') = Some fr -> Some fr ∈ feed w3) /\
     (forall rest j stj wj,
        begins rest st' w' j stj wj -> clock wj - stj.1 <= 1#2)).
Proof.
  intros Hl Hs Hrun Hnd Hh w3.
  pose proof (dispatch_task_run _ _ n _ _ _ _ Hl Hs Hrun Hnd Hh) as Hd.
  fold w3 in Hd. split; [|split].
  - intros Hlt. rewrite Hd. unfold bind, ret.
    rewrite (refresh_stale _ _ Hlt). unfold bind.
    by destruct (next_frame w3) as [[f| e |] w4].
  - intros Hle. rewrite Hd. unfold bind, ret.
    by rewrite (refresh_fresh _ _ Hle).
  - intros st' w' Hret.
    pose proof (dispatch_task_ran_fresh _ _ _ _ _ _ Hl Hs Hret) as Hfresh.
    split; [exact Hfresh|]. split.
    + intros Hlt. rewrite Hd in Hret. unfold bind, ret in Hret.
      destruct (refresh start_time w3) as [[s| e |] w4] eqn:Href; try discriminate.
      injection Hret as <- <-.
      destruct (refresh_result _ _ _ _ (end_task_current_task i r w2) Href)
        as (_ & _ & Hs3).
      destruct (Hs3 s eq_refl) as [_ Hnew]. by apply Hnew.
    + intros rest j stj wj Hb. exact (begins_fresh _ _ _ _ _ _ Hfresh Hb).
Qed.

(** A generic exception raised by the hook of a task that has an
    [error_count] is contained: the dispatch adds one to the count, leaves
    the [enabled] flag as the hook left it, clears [running] and
    [current_task], and goes on with the freshness check and the remaining
    tasks of the cycle. *)
Lemma task_fault_counted i rest start_time n w task msg w2 t2 c :
  tasks w !! i = Some task -> skipped task = false ->
  run_frame i (begin_task i start_time w) = (Raise (Exception msg), w2) ->
  tasks w2 !! i = Some t2 -> error_count t2 = Some c ->
  let w3 := end_task i (Raise (Exception msg)) w2 in
  (exists t3, tasks w3 !! i = Some t3 /\
     error_count t3 = Some (c + 1)%Z /\
     enabled t3 = enabled t2 /\ running t3 = false) /\
  (forall j, j <> i -> tasks w3 !! j = tasks w2 !! j) /\
  current_task (executor w3) = None /\
  dispatch_tasks (i :: rest) (start_time, n) w =
    (let* start' := refresh start_time in dispatch_tasks rest (start', S n)) w3.
Proof.
  intros Hl Hs Hrun Hl2 Hc w3. split; [|split; [|split]].
  - exists (set_running false (set_error_count (Some (c + 1)%Z) t2)).
    split; [|by repeat split].
    unfold w3, end_task. cbn [upd_exec upd_task tasks].
    rewrite !list_lookup_alter_eq, Hl2. cbn. rewrite Hc. reflexivity.
  - intros j Hj. unfold w3, end_task. cbn [upd_exec upd_task tasks].
    rewrite !list_lookup_alter_ne by congruence. reflexivity.
  - reflexivity.
  - cbn [dispatch_tasks]. unfold bind at 1.
    rewrite (dispatch_task_run _ _ n _ _ _ _ Hl Hs Hrun); [|discriminate|].
    + fold w3. unfold bind, ret.
      by destruct (refresh start_time w3) as [[s| e |] w4].
    + unfold handler_raises. by rewrite Hl2, Hc.
Qed.

(** A generic exception raised by the hook of a task that has no
    [error_count] is not contained: the except clause raises AttributeError
    at line 180, the loop over the tasks ends there with the world as the
    hook left it, and no later task of the cycle is dispatched. *)
Lemma task_fault_uncounted i rest start_time n w task msg w2 t2 :
  tasks w !! i = Some task -> skipped task = false ->
  run_frame i (begin_task i start_time w) = (Raise (Exception msg), w2) ->
  tasks w2 !! i = Some t2 -> error_count t2 = None ->
  dispatch_tasks (i :: rest) (start_time, n) w =
    (Raise (Exception "AttributeError"), w2).
Proof.
  intros Hl Hs Hrun Hl2 Hc. cbn [dispatch_tasks]. unfold bind.
  rewrite (dispatch_task_handler_raises _ _ n _ _ _ _ Hl Hs Hrun); [reflexivity|].
  unfold handler_raises. by rewrite Hl2, Hc.
Qed.

Lemma detect_scene_current_task ty e :
  current_task (detect_scene ty e).2 = current_task e.
Proof.
  unfold detect_scene, detect_scene_scan.
  destruct (latest_scene e) as [l|]; [destruct (detect l (_frame e)); [reflexivity|]|];
    destruct (scan_scenes _ _ _ _) as [[s|] c]; try reflexivity;
    destruct (current_scene e); reflexivity.
Qed.

Lemma cycle_scene_current_task f wa :
  current_task (executor wa) = None ->
  current_task (executor (upd_exec (fun e => (detect_scene None e).2)
                                   (upd_exec (set_frame f) wa))) = None.
Proof.
  intros Hc. cbn [upd_exec executor]. rewrite detect_scene_current_task. exact Hc.
Qed.

(** With scene predicates and a capture method that do not raise, as they
    are modelled here, the one exception that leaves the loop of execute,
    started without a current task, is the AttributeError of the except
    clause. *)
Lemma execute_raises_only_handler n w r w' :
  current_task (executor w) = None ->
  execute n w = (r, w') -> forall e, r = Raise e -> e = Exception "AttributeError".
Proof.
  revert w. induction n as [|n IH]; intros w Hc; cbn [execute];
    (destruct (exit_event (executor w)); [by intros [= <- <-]|]).
  { by intros [= <- <-]. }
  unfold bind. destruct (execute_cycle w) as [[[]| e |] w1] eqn:Hcyc.
  - intros Hrest. apply (IH w1); [|exact Hrest].
    revert Hcyc. unfold execute_cycle, bind.
    destruct (next_frame w) as [[f| e |] wa] eqn:Hn; try discriminate.
    destruct (next_frame_no_current_task _ _ _ Hc Hn) as (_ & Hca & _).
    destruct (_frame (executor (upd_exec (set_frame f) wa))); [|by intros [= <-]].
    destruct (dispatch_tasks _ _ _) as [[st| e |] wb] eqn:Hd; try discriminate.
    destruct (dispatch_tasks_result _ _ _ _ _ Hd) as (_ & Hcb).
    specialize (Hcb st eq_refl (cycle_scene_current_task f wa Hca)).
    unfold lift. intros Hs.
    by destruct (sleep_no_current_task _ (add_frame_stats wb) _ _ Hcb Hs) as (_ & ? & _).
  - intros [= <- <-] e' [= <-]. revert Hcyc. unfold execute_cycle, bind.
    destruct (next_frame w) as [[f| e0 |] wa] eqn:Hn.
    + destruct (next_frame_no_current_task _ _ _ Hc Hn) as (_ & Hca & _).
      destruct (_frame (executor (upd_exec (set_frame f) wa))); [|discriminate].
      destruct (dispatch_tasks _ _ _) as [[st| e0 |] wb] eqn:Hd.
      * destruct (dispatch_tasks_result _ _ _ _ _ Hd) as (_ & Hcb).
        specialize (Hcb st eq_refl (cycle_scene_current_task f wa Hca)).
        unfold lift. intros Hs.
        destruct (sleep_no_current_task _ (add_frame_stats wb) _ _ Hcb Hs) as (Hr & _).
        by destruct (Hr e).
      * destruct (dispatch_tasks_result _ _ _ _ _ Hd) as (Hr & _).
        intros [= <- <-]. by apply Hr.
      * discriminate.
    + destruct (next_frame_no_current_task _ _ _ Hc Hn) as (Hr & _). by destruct (Hr e0).
    + discriminate.
  - by intros [= <- <-].
Qed.








(** [disable()] clears [current_task], so a sleep that follows it finds no
    current task to check. *)
Lemma disable_no_current_task_disabled i w : current_task_disabled (disable i w) = false.
Proof. reflexivity. Qed.

(** ** The flags [running] and [enabled] *)








(** ** Pause and start *)

(** start moves the wake time of a sleep back by the length of the pause. *)
Lemma start_moves_deadline w :
  existsb can_run (tasks w) = true ->
  paused (executor (snd (start w))) = false /\
  pause_end_time (executor (snd (start w))) ==
    pause_end_time (executor w) - (clock w - pause_start (executor w)).
Proof.
  intros Hc. unfold start. rewrite Hc. cbn. split; [reflexivity|]. ring.
Qed.

(** ** More on detect_scene *)

Lemma set_current_scene_same e : set_current_scene (current_scene e) e = e.
Proof. by destruct e. Qed.

Lemma detect_scene_effect (ty : option string) (e : TaskExecutor)
    (r : option Scene) (calls : list nat) (e' : TaskExecutor) :
  detect_scene ty e = ((r, calls), e') ->
  e' = set_current_scene r e /\
  (forall s, r = Some s ->
     detect s (_frame e) = true /\ (latest_scene e = Some s \/ s ∈ scenes e)).
Proof.
  intros Hd.
  assert (Hscan : forall latest c,
    detect_scene_scan ty latest c e = ((r, calls), e') ->
    e' = set_current_scene r e /\
    (forall s, r = Some s -> detect s (_frame e) = true /\ s ∈ scenes e)).
  { intros latest c. unfold detect_scene_scan.
    destruct (scan_scenes ty latest (_frame e) (scenes e)) as [[s0|] c0] eqn:Hs.
    - intros [= <- <- <-]. split; [reflexivity|]. intros s [= <-].
      pose proof (scan_scenes_first _ _ _ _ _ _ Hs) as (l1 & l2 & Hl & He & Hdet & _).
      split; [exact Hdet|].
      rewrite Hl. apply elem_of_app. right. by left.
    - destruct (current_scene e) as [c1|] eqn:Hc; intros [= <- <- <-].
      + split; [reflexivity|]. intros s [=].
      + split; [by rewrite set_current_scene_same|].
        intros s Hr. rewrite Hc in Hr. discriminate Hr. }
  unfold detect_scene in Hd. destruct (latest_scene e) as [l|] eqn:Hl.
  - destruct (detect l (_frame e)) eqn:Hdl.
    + injection Hd as <- <- <-. split; [reflexivity|].
      intros s [= <-]. split; [exact Hdl|]. by left.
    + destruct (Hscan _ _ Hd) as [He' Hr]. split; [exact He'|].
      intros s Hs. destruct (Hr s Hs) as (? & ?). split; [done|]. by right.
  - destruct (Hscan _ _ Hd) as [He' Hr]. split; [exact He'|].
    intros s Hs. destruct (Hr s Hs) as (? & ?). split; [done|]. by right.
Qed.

(** X1: detect_scene writes [current_scene] and nothing else; the scene it
    returns matches the frame and is the latest scene or a scene of the
    catalogue; a scene picked by the scan is not the scene just re-checked. *)
Theorem detect_scene_sound (ty : option string) (e : TaskExecutor)
    (r : option Scene) (calls : list nat) (e' : TaskExecutor) :
  detect_scene ty e = ((r, calls), e') ->
  e' = set_current_scene r e /\
  (forall s, r = Some s ->
     detect s (_frame e) = true /\ (latest_scene e = Some s \/ s ∈ scenes e)) /\
  (forall l s, latest_scene e = Some l -> detect l (_frame e) = false ->
     r = Some s -> scene_id s <> scene_id l).
Proof.
  intros Hd. destruct (detect_scene_effect _ _ _ _ _ Hd) as [He' Hr].
  split; [exact He'|]. split; [exact Hr|].
  intros l s Hl Hdl ->.
  assert (Hopt : forall l0, latest_scene e = Some l0 -> detect l0 (_frame e) = false).
  { intros l0 Hl0. congruence. }
  destruct (detect_scene_fallback _ _ _ _ _ Hd Hopt) as (_ & l1 & l2 & _ & Hel & _).
  unfold eligible in Hel. apply andb_true_iff in Hel as [_ Hne].
  rewrite Hl in Hne. cbn in Hne. unfold scene_ne in Hne.
  apply negb_true_iff in Hne. by apply Nat.eqb_neq in Hne.
Qed.

(** X2: A scene that detect_scene has returned is returned again by the next
    call on the same frame, whatever its filter, from the optimistic check
    alone and without a further change of the executor. *)
Theorem detect_scene_sticky (ty ty' : option string) (e : TaskExecutor)
    (s : Scene) (calls : list nat) (e' : TaskExecutor) :
  detect_scene ty e = ((Some s, calls), e') ->
  detect_scene ty' e' = ((Some s, [scene_id s]), e').
Proof.
  intros Hd. destruct (detect_scene_effect _ _ _ _ _ Hd) as (-> & Hs).
  destruct (Hs s eq_refl) as [Hdet _].
  unfold detect_scene. cbn [latest_scene set_current_scene current_scene _frame].
  rewrite Hdet. reflexivity.
Qed.

(** X3: Across a cycle: reset_scene makes the scene that was current the latest
    scene, so that it stays current, found by the optimistic check, while it
    matches the new frame; a second reset_scene without a detection between
    them leaves no latest scene. *)
Theorem scene_kept_across_reset (ty : option string) (e : TaskExecutor)
    (f : option Frame) (A : Scene) :
  current_scene e = Some A -> detect A f = true ->
  detect_scene ty (set_frame f (reset_scene e)) =
    ((Some A, [scene_id A]),
     set_current_scene (Some A) (set_frame f (reset_scene e))) /\
  latest_scene (reset_scene (reset_scene e)) = None.
Proof.
  intros Hc Hd. split; [|reflexivity].
  unfold detect_scene.
  assert (Hl : latest_scene (set_frame f (reset_scene e)) = Some A) by exact Hc.
  rewrite Hl. cbn [_frame set_frame]. by rewrite Hd.
Qed.

(** ** The task state machine *)

(** X17: set_done takes the task out of the dispatch, which passes over it
    without a change, and enable brings it back with [done] cleared and an
    empty info mapping. *)
Theorem set_done_until_enable (i : nat) (w : World) (t : Task) :
  tasks w !! i = Some t ->
  (exists t1, tasks (set_done i w) !! i = Some t1 /\
     done t1 = true /\ enabled t1 = false /\ skipped t1 = true) /\
  (forall st, dispatch_task i st (set_done i w) = (Return st, set_done i w)) /\
  (exists t2, tasks (enable i (set_done i w)) !! i = Some t2 /\
     done t2 = false /\ enabled t2 = true /\ skipped t2 = false /\ info t2 = ∅).
Proof.
  intros Hl.
  assert (H1 : tasks (set_done i w) !! i =
               Some (set_enabled false (set_done_flag true t))).
  { unfold set_done, disable. cbn [emit upd_exec upd_task tasks].
    rewrite !list_lookup_alter_eq, Hl. reflexivity. }
  split; [|split].
  - eexists. split; [exact H1|]. by repeat split.
  - intros st. apply (dispatch_task_skip _ _ _ _ H1). reflexivity.
  - unfold enable. rewrite H1. cbn [negb _enabled set_enabled].
    unfold info_clear. cbn [emit upd_task tasks].
    rewrite !list_lookup_alter_eq, H1. eexists. split; [reflexivity|].
    by repeat split.
Qed.

(** X18: enable on a task that is not enabled empties its info mapping; so does
    disable followed by enable, which keeps the other fields of the task
    apart from [done]. *)
Theorem enable_after_disable (i : nat) (w : World) (t : Task) :
  tasks w !! i = Some t ->
  (enabled t = false ->
     exists t', tasks (enable i w) !! i = Some t' /\ info t' = ∅ /\ enabled t' = true) /\
  (exists t', tasks (enable i (disable i w)) !! i = Some t' /\
     info t' = ∅ /\ enabled t' = true /\ done t' = false /\
     running t' = running t /\ _paused t' = _paused t /\
     error_count t' = error_count t /\ name t' = name t).
Proof.
  intros Hl. split.
  - intros He. unfold enable, enabled in *. rewrite Hl, He. cbn [negb].
    unfold info_clear. cbn [emit upd_task tasks].
    rewrite !list_lookup_alter_eq, Hl. eexists. split; [reflexivity|]. by split.
  - assert (H1 : tasks (disable i w) !! i = Some (set_enabled false t)).
    { unfold disable. cbn [emit upd_exec upd_task tasks].
      rewrite list_lookup_alter_eq, Hl. reflexivity. }
    unfold enable. rewrite H1. cbn [negb _enabled set_enabled].
    unfold info_clear. cbn [emit upd_task tasks].
    rewrite !list_lookup_alter_eq, H1. eexists. split; [reflexivity|].
    by repeat split.
Qed.

(** X19: The status shown after a transition. For a task whose hook is not
    executing: "Not Started" after disable and after set_done, "Paused" or
    "In Queue" after enable. For a task whose hook is executing the status
    stays "Running" through all three. *)
Theorem status_after_transition (i : nat) (w : World) (t : Task) :
  tasks w !! i = Some t ->
  (running t = false ->
     get_status <$> tasks (disable i w) !! i = Some "Not Started" /\
     get_status <$> tasks (set_done i w) !! i = Some "Not Started" /\
     get_status <$> tasks (enable i w) !! i =
       Some (if _paused t then "Paused" else "In Queue")) /\
  (running t = true ->
     get_status <$> tasks (disable i w) !! i = Some "Running" /\
     get_status <$> tasks (set_done i w) !! i = Some "Running" /\
     get_status <$> tasks (enable i w) !! i = Some "Running").
Proof.
  intros Hl.
  assert (Hd : tasks (disable i w) !! i = Some (set_enabled false t)).
  { unfold disable. cbn [emit upd_exec upd_task tasks].
    rewrite list_lookup_alter_eq, Hl. reflexivity. }
  assert (Hs : tasks (set_done i w) !! i =
               Some (set_enabled false (set_done_flag true t))).
  { unfold set_done, disable. cbn [emit upd_exec upd_task tasks].
    rewrite !list_lookup_alter_eq, Hl. reflexivity. }
  assert (He : exists t', tasks (enable i w) !! i = Some t' /\
             running t' = running t /\ enabled t' = true /\ _paused t' = _paused t).
  { unfold enable. rewrite Hl. destruct (_enabled t) eqn:Hen; cbn [negb];
      unfold info_clear; cbn [emit upd_task tasks];
      rewrite !list_lookup_alter_eq, Hl; eexists; (split; [reflexivity|]);
      by repeat split. }
  destruct He as (t' & He & Hr' & He' & Hp').
  rewrite Hd, Hs, He. cbn [fmap option_fmap option_map].
  unfold get_status, enabled in *.
  cbn [running _enabled _paused set_enabled set_done_flag].
  rewrite Hr', He', Hp'.
  split; intros ->; by repeat split.
Qed.

(** ** The info mapping *)

Lemma info_set_lookup i key value w self :
  tasks w !! i = Some self ->
  tasks (info_set i key value w) !! i =
    Some (set_info (<[key := value]> (info self)) self).
Proof.
  intros Hl. unfold info_set. cbn [upd_task tasks].
  rewrite list_lookup_alter_eq, Hl. reflexivity.
Qed.

Lemma info_set_twice i key v1 v2 w :
  info_set i key v2 (info_set i key v1 w) = info_set i key v2 w.
Proof.
  unfold info_set, upd_task. cbn [executor tasks clock should_capture method feed
    script emitted]. f_equal.
  rewrite list_alter_alter_eq. apply list_alter_ext; [|reflexivity].
  intros self _. unfold compose. cbn [info set_info]. unfold set_info. cbn.
  by rewrite insert_insert_eq.
Qed.

(** X20: info_incr reads a missing key as 0 and adds to a number; it leaves the
    other keys, the other tasks and the executor as they are; on a string or
    a list it raises and writes nothing. *)
Theorem info_incr_lookup (i : nat) (key : string) (by_ : Z) (w : World) (self : Task) :
  tasks w !! i = Some self ->
  (forall v, info self !! key = None /\ v = 0%Z \/ info self !! key = Some (InfoInt v) ->
     exists w' self',
       info_incr i key by_ w = (Return tt, w') /\
       tasks w' !! i = Some self' /\
       info self' !! key = Some (InfoInt (v + by_)) /\
       (forall k, k <> key -> info self' !! k = info self !! k) /\
       (forall j, j <> i -> tasks w' !! j = tasks w !! j) /\
       executor w' = executor w) /\
  ((exists s, info self !! key = Some (InfoStr s)) \/
   (exists l, info self !! key = Some (InfoList l)) ->
     info_incr i key by_ w = (Raise (Exception "TypeError"), w)).
Proof.
  intros Hl. split.
  - intros v Hv.
    assert (Hg : info_get key (InfoInt 0) self = InfoInt v).
    { unfold info_get. destruct Hv as [[-> ->]| ->]; reflexivity. }
    exists (info_set i key (InfoInt (v + by_)) w),
           (set_info (<[key := InfoInt (v + by_)]> (info self)) self).
    split; [unfold info_incr; by rewrite Hl, Hg|].
    split; [by apply info_set_lookup|].
    split; [apply lookup_insert_eq|].
    split; [intros k Hk; by apply lookup_insert_ne|].
    split; [|reflexivity].
    intros j Hj. unfold info_set. cbn [upd_task tasks].
    apply list_lookup_alter_ne. congruence.
  - intros [[s Hs]|[l Hs]]; unfold info_incr, info_get; by rewrite Hl, Hs.
Qed.

(** X21: Two increments of a key add up, whether made by info_incr or by
    info_add. *)
Theorem info_incr_adds_up (i : nat) (key : string) (a b : Z) (w : World) :
  (let* _ := info_incr i key a in info_add i key b) w = info_incr i key (a + b) w.
Proof.
  unfold bind, info_incr, info_add.
  destruct (tasks w !! i) as [self|] eqn:Hl.
  2:{ by rewrite Hl. }
  destruct (info_get key (InfoInt 0) self) as [v|s|l] eqn:Hg; try reflexivity.
  rewrite (info_set_lookup _ _ _ _ _ Hl). unfold info_get at 1. cbn [info set_info].
  rewrite lookup_insert_eq. cbn [default id]. rewrite info_set_twice.
  by rewrite Z.add_assoc.
Qed.

(** X22: info_add_to_list appends to the list under [key], which it creates when
    the key is missing: one value, or all the values of a list, in order. It
    leaves the other keys as they are. On a number or a string it raises,
    TypeError for a list item and AttributeError for a single one, and
    writes nothing. *)
Theorem info_add_to_list_appends (i : nat) (key : string) (item : InfoItem)
    (w : World) (self : Task) :
  tasks w !! i = Some self ->
  (forall old, info self !! key = None /\ old = [] \/
               info self !! key = Some (InfoList old) ->
     exists w' self',
       info_add_to_list i key item w = (Return tt, w') /\
       tasks w' !! i = Some self' /\
       info self' !! key = Some (InfoList (old ++ items_of item)) /\
       (forall k, k <> key -> info self' !! k = info self !! k)) /\
  ((exists n, info self !! key = Some (InfoInt n)) \/
   (exists s, info self !! key = Some (InfoStr s)) ->
     info_add_to_list i key item w =
       (Raise (Exception (match item with
                          | OneItem _ => "AttributeError"
                          | ManyItems _ => "TypeError"
                          end)), w)).
Proof.
  intros Hl. split.
  - intros old Hold.
    assert (Hg : info_get key (InfoList []) self = InfoList old).
    { unfold info_get. destruct Hold as [[-> ->]| ->]; reflexivity. }
    exists (info_set i key (InfoList (old ++ items_of item)) w),
           (set_info (<[key := InfoList (old ++ items_of item)]> (info self)) self).
    split; [unfold info_add_to_list; rewrite Hl, Hg; by destruct item|].
    split; [by apply info_set_lookup|].
    split; [apply lookup_insert_eq|].
    intros k Hk. by apply lookup_insert_ne.
  - intros [[n Hn]|[s Hs]]; unfold info_add_to_list, info_get;
      [rewrite Hl, Hn | rewrite Hl, Hs]; by destruct item.
Qed.

(** ** More on sleep *)

Lemma time_sleep_quiescent d w :
  script w = [] -> time_sleep d w = set_clock (clock w + d) w.
Proof. intros Hq. unfold time_sleep. cbn [set_clock script]. by rewrite Hq. Qed.

Lemma sleep_check_asleep w :
  awake w -> clock w < pause_end_time (executor w) -> sleep_check w = None.
Proof.
  intros (He & Hd & Hp & Hc) Hlt. unfold sleep_check.
  rewrite He, Hd, Hp, Hc. cbn [orb negb].
  destruct (Qle_bool _ _) eqn:Hb; [|reflexivity].
  apply Qle_bool_iff in Hb. lra.
Qed.

Lemma sleep_check_held w : held w -> sleep_check w = None.
Proof.
  intros (He & Hd & Hp). unfold sleep_check. rewrite He, Hd.
  destruct Hp as [-> | ->]; [reflexivity|]. by destruct (paused (executor w)).
Qed.

Lemma inject_Z_succ n :
  inject_Z (Z.of_nat (S n)) == inject_Z (Z.of_nat n) + 1.
Proof. rewrite Nat2Z.inj_succ. unfold Z.succ. by rewrite inject_Z_plus. Qed.

(** With no other thread acting and nothing holding the sleep, the loop ends
    within the polls that cover the time to wait, no earlier than the wake
    time and less than one polling interval after it. *)
Lemma sleep_loop_quiescent n w :
  quiescent w -> awake w ->
  pause_end_time (executor w) - clock w <= inject_Z (Z.of_nat n) * poll_interval ->
  exists w', sleep_loop n w = (Return tt, w') /\
    executor w' = executor w /\ tasks w' = tasks w /\
    pause_end_time (executor w) <= clock w' /\ clock w <= clock w' /\
    (clock w' == clock w \/ clock w' < pause_end_time (executor w) + poll_interval).
Proof.
  revert w. induction n as [|n IH]; intros w Hq Ha Hle.
  - assert (Hpast : pause_end_time (executor w) <= clock w).
    { change (inject_Z (Z.of_nat 0)) with 0 in Hle. lra. }
    exists w. destruct Ha as (He & Hd & Hp & Hc).
    rewrite (sleep_loop_leaves 0 w (Return tt)) by (by apply sleep_check_awake).
    split; [reflexivity|]. split; [reflexivity|]. split; [reflexivity|].
    split; [exact Hpast|]. split; [lra|]. left. reflexivity.
  - destruct (Qlt_le_dec (clock w) (pause_end_time (executor w))) as [Hlt|Hpast].
    + rewrite (sleep_loop_poll n w) by (by apply sleep_check_asleep).
      rewrite (time_sleep_quiescent _ _ Hq).
      destruct (IH (set_clock (clock w + poll_interval) w)) as (w' & Hrun & Hex & Ht & H1 & H2 & H3).
      * exact Hq.
      * exact Ha.
      * cbn [set_clock executor clock]. rewrite inject_Z_succ in Hle.
        unfold poll_interval in *. lra.
      * exists w'. cbn [set_clock executor clock tasks] in *.
        split; [exact Hrun|]. split; [exact Hex|]. split; [exact Ht|].
        split; [exact H1|]. unfold poll_interval in *.
        split; [lra|]. right. destruct H3 as [H3|H3]; [rewrite H3|]; lra.
    + exists w. destruct Ha as (He & Hd & Hp & Hc).
      rewrite (sleep_loop_leaves (S n) w (Return tt)) by (by apply sleep_check_awake).
      split; [reflexivity|]. split; [reflexivity|]. split; [reflexivity|].
      split; [exact Hpast|]. split; [lra|]. left. reflexivity.
Qed.

(** X6: sleep is accurate when nothing interferes: with enough polls for the
    timeout it returns, having changed no task, at a time that is not before
    the wake time and less than a millisecond past it (or at once, for a
    timeout that is not positive). *)
Theorem sleep_accurate (timeout : Q) (w : World) :
  quiescent w -> awake w ->
  timeout <= inject_Z (Z.of_nat fuel) * (1#1000) ->
  exists w', sleep timeout w = (Return tt, w') /\
    tasks w' = tasks w /\
    clock w + timeout <= clock w' /\ clock w <= clock w' /\
    (clock w' == clock w \/ clock w' < clock w + timeout + (1#1000)).
Proof.
  intros Hq Ha Hle. unfold sleep.
  destruct (sleep_loop_quiescent fuel (sleep_enter timeout w)) as
    (w' & Hrun & _ & Ht & H1 & H2 & H3).
  - exact Hq.
  - exact Ha.
  - cbn [sleep_enter upd_exec executor pause_end_time set_pause_end_time clock].
    unfold poll_interval. lra.
  - exists w'. cbn [sleep_enter upd_exec executor pause_end_time set_pause_end_time
                    clock tasks] in *.
    unfold poll_interval in *. repeat split; assumption.
Qed.

Lemma sleep_loop_held n w :
  quiescent w -> held w -> exists w', sleep_loop n w = (Diverge, w').
Proof.
  revert w. induction n as [|n IH]; intros w Hq Hh; cbn [sleep_loop];
    rewrite (sleep_check_held _ Hh).
  - by exists w.
  - rewrite (time_sleep_quiescent _ _ Hq). by apply IH.
Qed.

(** X7: While the executor is paused, or capture is refused, and no other thread
    acts, sleep does not return, whatever its timeout and however many
    polls it is given. *)
Theorem sleep_held_while_paused (timeout : Q) (w : World) :
  quiescent w -> held w -> exists w', sleep timeout w = (Diverge, w').
Proof.
  intros Hq Hh. unfold sleep. by apply sleep_loop_held.
Qed.

(** ** What the other threads cannot change *)

Lemma start_executor_keeps w :
  scene_fields (executor (start w).2) = scene_fields (executor w) /\
  exit_event (executor (start w).2) = exit_event (executor w).
Proof. unfold start. by destruct (negb _). Qed.

(** A call from another thread leaves the scenes of the executor alone and
    never clears the exit event. *)
Lemma apply_action_keeps a w :
  scene_fields (executor (apply_action a w)) = scene_fields (executor w) /\
  (exit_event (executor w) = true -> exit_event (executor (apply_action a w)) = true).
Proof.
  destruct a; cbn [apply_action]; try (split; [reflexivity|by intros]).
  - rewrite enable_executor. by split.
  - unfold unpause. cbn [emit executor].
    destruct (start_executor_keeps (upd_task i (set_task_paused false) w)) as [-> ->].
    by split.
  - destruct (start_executor_keeps w) as [-> ->]. by split.
Qed.

Lemma time_sleep_keeps d w :
  scene_fields (executor (time_sleep d w)) = scene_fields (executor w) /\
  (exit_event (executor w) = true -> exit_event (executor (time_sleep d w)) = true).
Proof.
  unfold time_sleep. cbn [set_clock script].
  destruct (script w) as [|acts rest]; [by split|].
  change (scene_fields (executor w)) with
    (scene_fields (executor (set_script rest (set_clock (clock w + d) w)))).
  change (exit_event (executor w)) with
    (exit_event (executor (set_script rest (set_clock (clock w + d) w)))).
  generalize (set_script rest (set_clock (clock w + d) w)).
  induction acts as [|a acts IH]; intros w0; [by split|].
  cbn [foldl]. destruct (IH (apply_action a w0)) as [-> Hx].
  destruct (apply_action_keeps a w0) as [-> Hx0]. split; [reflexivity|]. auto.
Qed.

Lemma sleep_loop_keeps n w r w' :
  sleep_loop n w = (r, w') ->
  scene_fields (executor w') = scene_fields (executor w) /\
  (exit_event (executor w) = true -> exit_event (executor w') = true).
Proof.
  revert w. induction n as [|n IH]; intros w; cbn [sleep_loop];
    destruct (sleep_check w); try (intros [= <- <-]; by split).
  intros Hs. destruct (IH _ Hs) as [-> Hx].
  destruct (time_sleep_keeps poll_interval w) as [-> Hx0]. split; [reflexivity|]. auto.
Qed.

Lemma sleep_keeps timeout w r w' :
  sleep timeout w = (r, w') ->
  scene_fields (executor w') = scene_fields (executor w) /\
  (exit_event (executor w) = true -> exit_event (executor w') = true).
Proof.
  unfold sleep. intros Hs. exact (sleep_loop_keeps _ _ _ _ Hs).
Qed.

Lemma sleep_feed timeout w r w' : sleep timeout w = (r, w') -> feed w' = feed w.
Proof.
  unfold sleep.
  change (feed w) with (feed (sleep_enter timeout w)).
  generalize (sleep_enter timeout w) as w0. generalize fuel as n.
  induction n as [|n IH]; intros w0; cbn [sleep_loop];
    destruct (sleep_check w0); try (intros [= <- <-]; reflexivity).
  intros Hs. rewrite (IH _ Hs). apply time_sleep_feed.
Qed.

Lemma try_capture_keeps w :
  scene_fields (executor (try_capture w).2) = scene_fields (executor w) /\
  exit_event (executor (try_capture w).2) = exit_event (executor w).
Proof.
  unfold try_capture. destruct (method w && should_capture w); [|by split].
  unfold get_frame. destruct (feed w) as [|[fr|] rest]; try by split.
  cbn [upd_exec executor set_feed]. by destruct (_ || _).
Qed.

(** A frame that try_capture returns has a positive height and width. *)
Lemma try_capture_size w fr w' :
  try_capture w = (Some (Some fr), w') -> (0 < height fr)%Z /\ (0 < width fr)%Z.
Proof.
  unfold try_capture. destruct (method w && should_capture w); [|discriminate].
  unfold get_frame. destruct (feed w) as [|[fr0|] rest]; try discriminate.
  cbn [upd_exec executor set_feed].
  destruct (_ || _) eqn:Hsz; cbn [upd_exec executor emit set_frame _frame].
  - discriminate.
  - intros [= <- _]. apply orb_false_iff in Hsz as [Hh Hw].
    apply Z.leb_gt in Hh, Hw. by split.
Qed.

(** ** More on next_frame *)

Lemma next_frame_loop_result n start_time w f w' :
  next_frame_loop n start_time w = (Return f, w') ->
  scene_fields (executor w') = scene_fields (executor w) /\
  (forall fr, f = Some fr ->
     (0 < height fr)%Z /\ (0 < width fr)%Z /\ Some fr ∈ feed w).
Proof.
  revert w. induction n as [|n IH]; intros w Hrun; cbn [next_frame_loop] in Hrun.
  all: destruct (exit_event (executor w));
    [injection Hrun as <- <-; split; [reflexivity|]; intros ? [=] |].
  all: pose proof (try_capture_keeps w) as [Hk _];
    pose proof (try_capture_feed_suffix w) as Hsuf;
    destruct (try_capture w) as [[r0|] w1] eqn:Ht; cbn [snd] in Hk, Hsuf.
  1,3: injection Hrun as <- <-; split; [exact Hk|]; intros fr ->;
    destruct (try_capture_size _ _ _ Ht) as [Hh Hw];
    destruct (try_capture_frame _ _ _ Ht) as [_ Hfeed];
    destruct (Hfeed fr eq_refl) as (rest & -> & _);
    split; [exact Hh|]; split; [exact Hw|]; by left.
  all: unfold bind in Hrun;
    destruct (sleep poll_interval w1) as [[[]| e |] w2] eqn:Hs; try discriminate;
    destruct (sleep_keeps _ _ _ _ Hs) as [Hk2 _];
    pose proof (sleep_feed _ _ _ _ Hs) as Hfeed;
    destruct (Qgtb _ _);
    [injection Hrun as <- <-; split; [congruence|]; intros ? [=] |].
  - discriminate.
  - destruct (IH w2 Hrun) as [Hk3 Hfr]. split; [congruence|].
    intros fr Hf. destruct (Hfr fr Hf) as (Hh & Hw & Hin).
    split; [exact Hh|]. split; [exact Hw|].
    rewrite Hfeed in Hin. destruct Hsuf as [k ->]. apply elem_of_app. by right.
Qed.

Lemma next_frame_scenes (w : World) (f : option Frame) (w' : World) :
  next_frame w = (Return f, w') ->
  current_scene (executor w') = None /\
  last_scene (executor w') = current_scene (executor w) /\
  scenes (executor w') = scenes (executor w).
Proof.
  intros Hn. unfold next_frame in Hn.
  destruct (next_frame_loop_result _ _ _ _ _ Hn) as [Hk _].
  unfold scene_fields in Hk.
  cbn [upd_exec executor reset_scene current_scene last_scene scenes
       set_current_scene set_last_scene set_frame] in Hk.
  injection Hk as -> -> ->. by repeat split.
Qed.

(** X8: What next_frame returns it has stored in [_frame]; a frame it returns has
    a positive height and width and is one that the capture method delivered
    during the call. The scene that was current has become the last scene,
    and no scene is current. *)
Theorem next_frame_result (w : World) (f : option Frame) (w' : World) :
  next_frame w = (Return f, w') ->
  _frame (executor w') = f /\
  (forall fr, f = Some fr ->
     (0 < height fr)%Z /\ (0 < width fr)%Z /\ Some fr ∈ feed w) /\
  current_scene (executor w') = None /\
  last_scene (executor w') = current_scene (executor w) /\
  scenes (executor w') = scenes (executor w).
Proof.
  intros Hn. split; [exact (next_frame_stores _ _ _ Hn)|].
  split; [|exact (next_frame_scenes _ _ _ Hn)].
  unfold next_frame in Hn.
  destruct (next_frame_loop_result _ _ _ _ _ Hn) as [_ Hfr]. exact Hfr.
Qed.

(** X9: The first capture decides when it delivers a frame: a frame of positive
    size is returned and stored; a frame with a height or width that is not
    positive is taken from the feed all the same and next_frame returns
    [None] at once, without another attempt. *)
Theorem next_frame_first_capture (w : World) (fr : Frame) (rest : list (option Frame)) :
  exit_event (executor w) = false -> method w = true -> should_capture w = true ->
  feed w = Some fr :: rest ->
  exists w', feed w' = rest /\ tasks w' = tasks w /\ clock w' = clock w /\
    if (height fr <=? 0)%Z || (width fr <=? 0)%Z
    then next_frame w = (Return None, w') /\ _frame (executor w') = None /\
         emitted w' = emitted w ++ [SigFrame None]
    else next_frame w = (Return (Some fr), w') /\ _frame (executor w') = Some fr /\
         emitted w' = emitted w ++ [SigFrame (Some fr)].
Proof.
  intros He Hm Hc Hf. unfold next_frame.
  set (w0 := upd_exec reset_scene w).
  assert (He0 : exit_event (executor w0) = false) by exact He.
  assert (Hm0 : method w0 = true) by exact Hm.
  assert (Hc0 : should_capture w0 = true) by exact Hc.
  assert (Hf0 : feed w0 = Some fr :: rest) by exact Hf.
  assert (Ht0 : tasks w0 = tasks w) by reflexivity.
  assert (Hk0 : clock w0 = clock w) by reflexivity.
  assert (Hx0 : emitted w0 = emitted w) by reflexivity.
  clearbody w0.
  destruct (try_capture w0) as [r w1] eqn:Ht.
  assert (Hcap : next_frame_loop fuel (clock w0) w0 =
                 match r with Some r0 => (Return r0, w1) | None => (Diverge, w1) end
                 \/ r = None).
  { destruct r as [r0|]; [left|by right].
    destruct fuel; cbn [next_frame_loop]; by rewrite He0, Ht. }
  revert Ht. unfold try_capture, get_frame. rewrite Hm0, Hc0, Hf0. cbn [andb].
  destruct (_ || _); intros [= <- <-]; (destruct Hcap as [Hcap|]; [|discriminate]);
    eexists; (split; [|split; [|split; [|split; [exact Hcap|]]]]);
    try reflexivity; try assumption; cbn; by rewrite Hx0.
Qed.

(** ** Stop, and the end of execute *)

(** X12: The exit event is terminal: stop sets it and no operation clears it; once
    it is set, sleep returns at once, next_frame returns [None] without a
    capture, and execute returns. *)
Theorem exit_event_terminal (w : World) :
  exit_event (executor (stop w)) = true /\
  (exit_event (executor w) = true ->
     (forall s, exit_event (executor (step s w)) = true) /\
     (forall timeout, sleep timeout w = (Return tt, sleep_enter timeout w)) /\
     next_frame w = (Return None, upd_exec reset_scene w) /\
     (forall n, execute n w = (Return tt, w))).
Proof.
  split; [reflexivity|]. intros He. split; [|split; [|split]].
  - intros s. destruct s as [a| i st | i st | i r | | ty | | timeout |]; cbn [step];
      try exact He.
    + by apply apply_action_keeps.
    + destruct (tasks w !! i) as [task|]; [destruct (skipped task)|]; exact He.
    + destruct (handler_raises i r w); [exact He|].
      destruct r as [[]|[|msg]|]; exact He.
    + cbn [upd_exec executor].
      destruct (detect_scene ty (executor w)) as [[r c] e'] eqn:Hd.
      destruct (detect_scene_effect _ _ _ _ _ Hd) as (-> & _). exact He.
    + destruct (try_capture_keeps w) as [_ ->]. exact He.
  - intros timeout. unfold sleep. apply sleep_loop_leaves. by apply sleep_check_exit.
  - unfold next_frame.
    destruct fuel; cbn [next_frame_loop upd_exec executor reset_scene exit_event
      set_current_scene set_last_scene set_frame]; by rewrite He.
  - intros n. destruct n; cbn [execute]; by rewrite He.
Qed.

(** X13: execute returns only with the exit event set: as long as nobody
    calls stop, the loop goes on, or it is left by an exception. *)
Theorem execute_ends_on_exit (n : nat) (w : World) (w' : World) :
  execute n w = (Return tt, w') -> exit_event (executor w') = true.
Proof.
  revert w. induction n as [|n IH]; intros w; cbn [execute];
    destruct (exit_event (executor w)) eqn:He.
  - by intros [= <-].
  - intros [=].
  - by intros [= <-].
  - unfold bind. destruct (execute_cycle w) as [[[]| e |] w1].
    + apply IH.
    + intros [=].
    + intros [=].
Qed.

(** X14: A loop over tasks that are all disabled, done or missing runs no hook: it
    returns with the world and its locals unchanged. *)
Theorem dispatch_nothing_eligible (idxs : list nat) (st : Q * nat) (w : World) :
  (forall i t, i ∈ idxs -> tasks w !! i = Some t -> skipped t = true) ->
  dispatch_tasks idxs st w = (Return st, w).
Proof.
  induction idxs as [|i rest IH]; intros Hall; cbn [dispatch_tasks]; [reflexivity|].
  unfold bind.
  assert (Hi : dispatch_task i st w = (Return st, w)).
  { destruct (tasks w !! i) as [t|] eqn:Hl.
    - apply (dispatch_task_skip _ _ _ _ Hl). apply (Hall i t); [by left|exact Hl].
    - by apply dispatch_task_skip_absent. }
  rewrite Hi. apply IH. intros j t Hj. apply Hall. by right.
Qed.

(** ** Pause and start, continued *)

(** X15: A pause of length [d] ended by start moves the wake time of a sleep back
    by [d]; start reports success and clears [paused]. *)
Theorem pause_then_start (w : World) (d : Q) :
  existsb can_run (tasks w) = true ->
  let w1 := set_clock (clock w + d) (pause w) in
  paused (executor w1) = true /\
  pause_start (executor w1) = clock w /\
  start w1 = (true, (start w1).2) /\
  paused (executor (start w1).2) = false /\
  pause_end_time (executor (start w1).2) == pause_end_time (executor w) - d /\
  tasks (start w1).2 = tasks w.
Proof.
  intros Hc w1. unfold start.
  assert (Hc1 : existsb can_run (tasks w1) = true) by exact Hc.
  rewrite Hc1. cbn [negb snd fst]. repeat split. cbn. ring.
Qed.

(** X16: start refuses when no task can run: it returns [False] and changes
    nothing, so the executor stays paused. unpause then clears the [paused]
    flag of its task all the same and leaves the executor as it was. *)
Theorem start_refused (w : World) (i : nat) :
  existsb can_run (tasks w) = false ->
  start w = (false, w) /\
  (existsb can_run (tasks (upd_task i (set_task_paused false) w)) = false ->
     executor (unpause i w) = executor w /\
     tasks (unpause i w) = alter (set_task_paused false) i (tasks w)).
Proof.
  intros Hc. split.
  - unfold start. by rewrite Hc.
  - intros Hc'. unfold unpause, start. rewrite Hc'. by split.
Qed.

(** ** wait_condition and wait_scene *)

(** X5: After the exit event wait_condition returns [None] from its first sleep
    and its loop test: the condition and the two actions are not run. *)
Theorem wait_condition_cancelled {A : Type} (condition : M (option A)) (time_out : Q)
    (pre_action post_action : option (M unit)) (w : World) :
  exit_event (executor w) = true ->
  wait_condition condition time_out pre_action post_action w =
    (Return None, sleep_enter (wait_until_before_delay (executor w)) w).
Proof.
  intros He. unfold wait_condition, bind, sleep.
  rewrite (sleep_loop_leaves fuel _ (Return tt)) by (by apply sleep_check_exit).
  destruct fuel; cbn [wait_condition_loop];
    cbn [sleep_enter upd_exec executor exit_event set_pause_end_time set_frame_stats];
    by rewrite He.
Qed.

(** Without a pre-action an attempt of wait_scene evaluates the detection
    with no latest scene, so a scene it finds has the requested type. *)
Lemma wait_attempt_filtered ty post_action w s w' :
  wait_attempt (detect_scene_call (Some ty)) None post_action w = (Return (Some s), w') ->
  isinstance s ty = true.
Proof.
  unfold wait_attempt, bind, lift, run_action, ret.
  destruct (next_frame (upd_exec reset_scene w)) as [[f| e |] wb] eqn:Hn;
    try discriminate.
  destruct (next_frame_scenes _ _ _ Hn) as (Hcur & Hlast & _).
  cbn [upd_exec executor reset_scene current_scene set_current_scene set_last_scene
       set_frame] in Hlast.
  destruct f as [fr|].
  - unfold detect_scene_call at 1.
    destruct (detect_scene (Some ty) (executor (upd_exec (set_frame (Some fr)) wb)))
      as [[r c] e'] eqn:Hd.
    assert (Hty : forall s0, r = Some s0 -> isinstance s0 ty = true).
    { intros s0 ->. apply (detect_scene_fallback_filtered _ _ _ _ _ Hd).
      intros l Hl. unfold latest_scene in Hl.
      cbn [upd_exec executor current_scene last_scene set_frame] in Hl.
      rewrite Hcur, Hlast in Hl. discriminate Hl. }
    destruct r as [s0|].
    + destruct (sleep_check_delay _) as [[[]| e |] wd]; try discriminate.
      intros [= <- <-]. by apply Hty.
    + destruct post_action as [act|]; [destruct (act _) as [[[]| e |] wd]|];
        discriminate.
  - destruct post_action as [act|]; [destruct (act _) as [[[]| e |] wd]|];
      discriminate.
Qed.

Lemma wait_loop_filtered n ty start_time time_out post_action w s w' :
  wait_condition_loop n (detect_scene_call (Some ty)) start_time time_out
                      None post_action w = (Return (Some s), w') ->
  isinstance s ty = true.
Proof.
  revert w. induction n as [|n IH]; intros w; cbn [wait_condition_loop];
    (destruct (exit_event (executor w)); [discriminate|]); unfold bind at 1;
    destruct (wait_attempt _ None post_action w) as [[[s0|]| e |] w1] eqn:Ha;
    try discriminate.
  - unfold ret. intros [= <- <-]. exact (wait_attempt_filtered _ _ _ _ _ Ha).
  - destruct (Qgtb _ _); [discriminate|]. unfold bind.
    destruct (sleep (1#100) w1) as [[[]| e |] w2]; discriminate.
  - unfold ret. intros [= <- <-]. exact (wait_attempt_filtered _ _ _ _ _ Ha).
  - destruct (Qgtb _ _); [discriminate|]. unfold bind.
    destruct (sleep (1#100) w1) as [[[]| e |] w2]; try discriminate. apply IH.
Qed.

(** X4: wait_scene called with a scene type and no pre-action returns only
    scenes of that type: each attempt resets the scenes twice before it
    detects, so the optimistic check of detect_scene has nothing to
    re-check. *)
Theorem wait_scene_filtered (ty : string) (time_out : Q)
    (post_action : option (M unit)) (w : World) (s : Scene) (w' : World) :
  wait_scene (Some ty) time_out None post_action w = (Return (Some s), w') ->
  isinstance s ty = true.
Proof.
  unfold wait_scene, wait_condition, bind.
  destruct (sleep _ w) as [[[]| e |] w1]; try discriminate.
  apply wait_loop_filtered.
Qed.

(** ** next_frame: waiting for a frame *)

Lemma set_clock_same w : set_clock (clock w) w = w.
Proof. by destruct w. Qed.

Lemma set_clock_twice c d w : set_clock c (set_clock d w) = set_clock c w.
Proof. reflexivity. Qed.

(** The loop of sleep when nothing interferes, with the world it leaves:
    the world it started in at a later time. *)
Lemma sleep_loop_quiescent_world n w :
  quiescent w -> awake w ->
  pause_end_time (executor w) - clock w <= inject_Z (Z.of_nat n) * poll_interval ->
  exists c, sleep_loop n w = (Return tt, set_clock c w) /\
    pause_end_time (executor w) <= c /\ clock w <= c.
Proof.
  revert w. induction n as [|n IH]; intros w Hq Ha Hle.
  - assert (Hpast : pause_end_time (executor w) <= clock w).
    { change (inject_Z (Z.of_nat 0)) with 0 in Hle. lra. }
    exists (clock w). destruct Ha as (He & Hd & Hp & Hc).
    rewrite (sleep_loop_leaves 0 w (Return tt)) by (by apply sleep_check_awake).
    rewrite set_clock_same. split; [reflexivity|]. split; [exact Hpast|lra].
  - destruct (Qlt_le_dec (clock w) (pause_end_time (executor w))) as [Hlt|Hpast].
    + rewrite (sleep_loop_poll n w) by (by apply sleep_check_asleep).
      rewrite (time_sleep_quiescent _ _ Hq).
      destruct (IH (set_clock (clock w + poll_interval) w)) as (c & Hrun & H1 & H2).
      * exact Hq.
      * exact Ha.
      * cbn [set_clock executor clock]. rewrite inject_Z_succ in Hle.
        unfold poll_interval in *. lra.
      * exists c. rewrite set_clock_twice in Hrun.
        cbn [set_clock executor clock] in *. unfold poll_interval in *.
        split; [exact Hrun|]. split; [exact H1|lra].
    + exists (clock w). destruct Ha as (He & Hd & Hp & Hc).
      rewrite (sleep_loop_leaves (S n) w (Return tt)) by (by apply sleep_check_awake).
      rewrite set_clock_same. split; [reflexivity|]. split; [exact Hpast|lra].
Qed.

Lemma next_frame_loop_times_out n start_time w :
  quiescent w -> awake w -> method w = false -> (1 <= fuel)%nat ->
  start_time + wait_scene_timeout (executor w) <
    clock w + inject_Z (Z.of_nat (S n)) * poll_interval ->
  exists w', next_frame_loop n start_time w = (Return None, w') /\
    wait_scene_timeout (executor w) < clock w' - start_time /\
    feed w' = feed w /\ tasks w' = tasks w.
Proof.
  revert w. induction n as [|n IH]; intros w Hq Ha Hm Hfuel Hlt;
    cbn [next_frame_loop]; destruct Ha as (He & Hd & Hp & Hc); rewrite He;
    unfold try_capture; rewrite Hm; cbn [andb]; unfold bind, sleep.
  all: destruct (sleep_loop_quiescent_world fuel (sleep_enter poll_interval w))
         as (c & Hrun & H1 & _);
    [ exact Hq | by repeat split
    | cbn [sleep_enter upd_exec executor pause_end_time set_pause_end_time clock];
      assert (Hf1 : 1 <= inject_Z (Z.of_nat fuel))
        by (change 1 with (inject_Z 1); rewrite <- Zle_Qle; lia);
      unfold poll_interval; lra
    | ].
  all: rewrite Hrun;
    cbn [sleep_enter upd_exec executor pause_end_time set_pause_end_time clock
         set_clock wait_scene_timeout set_frame_stats] in *.
  - assert (Hgt : Qgtb (c - start_time) (wait_scene_timeout (executor w)) = true).
    { apply Qgtb_true. change (inject_Z (Z.of_nat 1)) with 1 in Hlt.
      unfold poll_interval in *. lra. }
    rewrite Hgt. eexists. split; [reflexivity|]. apply Qgtb_true in Hgt.
    by repeat split.
  - destruct (Qgtb (c - start_time) (wait_scene_timeout (executor w))) eqn:Hgt.
    + eexists. split; [reflexivity|]. apply Qgtb_true in Hgt. by repeat split.
    + apply Qgtb_false in Hgt.
      destruct (IH (set_clock c (sleep_enter poll_interval w))) as (w' & Hrun' & H2 & H3 & H4).
      * exact Hq.
      * by repeat split.
      * exact Hm.
      * exact Hfuel.
      * cbn [sleep_enter upd_exec executor pause_end_time set_pause_end_time clock
             set_clock wait_scene_timeout set_frame_stats].
        rewrite inject_Z_succ in Hlt. unfold poll_interval in *. lra.
      * exists w'. split; [exact Hrun'|]. by repeat split.
Qed.

(** X10: With no capture method, nothing holding the sleeps and no other thread
    acting, next_frame gives up: it returns [None] once more than
    [wait_scene_timeout] has passed, having taken no frame. *)
Theorem next_frame_times_out (w : World) :
  quiescent w -> awake w -> method w = false -> (1 <= fuel)%nat ->
  wait_scene_timeout (executor w) < inject_Z (Z.of_nat (S fuel)) * (1#1000) ->
  exists w', next_frame w = (Return None, w') /\
    wait_scene_timeout (executor w) < clock w' - clock w /\
    feed w' = feed w /\ tasks w' = tasks w.
Proof.
  intros Hq Ha Hm Hfuel Hlt. unfold next_frame.
  destruct (next_frame_loop_times_out fuel (clock w) (upd_exec reset_scene w))
    as (w' & Hrun & H1 & H2 & H3).
  - exact Hq.
  - exact Ha.
  - exact Hm.
  - exact Hfuel.
  - cbn [upd_exec executor clock reset_scene wait_scene_timeout set_current_scene
         set_last_scene set_frame]. unfold poll_interval. lra.
  - exists w'. split; [exact Hrun|]. by repeat split.
Qed.

Lemma next_frame_loop_held n start_time w :
  quiescent w -> exit_event (executor w) = false -> current_task_disabled w = false ->
  should_capture w = false ->
  exists w', next_frame_loop n start_time w = (Diverge, w').
Proof.
  intros Hq He Hd Hc.
  destruct (sleep_loop_held fuel (sleep_enter poll_interval w)) as (w' & Hs).
  { exact Hq. }
  { split; [exact He|]. split; [exact Hd|]. by right. }
  exists w'. destruct n; cbn [next_frame_loop]; rewrite He; unfold try_capture;
    rewrite Hc, andb_false_r; unfold bind, sleep; by rewrite Hs.
Qed.

(** X11: While capture is refused and no other thread acts, next_frame does not
    return: it is held in its sleep, and [wait_scene_timeout] is never
    looked at. *)
Theorem next_frame_held_without_capture (w : World) :
  quiescent w -> exit_event (executor w) = false -> current_task_disabled w = false ->
  should_capture w = false ->
  exists w', next_frame w = (Diverge, w').
Proof.
  intros Hq He Hd Hc. unfold next_frame.
  by apply (next_frame_loop_held fuel (clock (upd_exec reset_scene w))
              (upd_exec reset_scene w)).
Qed.

End Scheduler.

(** * The properties on concrete runs *)

(** C1, the code at the failing input. A sleep of ten seconds starts at time
    0. At time 4 the executor is paused, with six seconds of the sleep left;
    at time 7, three seconds later, it is started again. start sets the
    wake time to 7, and the sleep returns at time 7: none of the six
    seconds is waited for, where the claim asks for a return no earlier than
    time 13. *)
Theorem sleep_wakes_early_after_pause :
  let w0 := sleep_enter (10#1) sleeping_world in
  let w1 := time_sleep always_runnable poll_interval w0 in
  let w2 := time_sleep always_runnable poll_interval w1 in
  (paused (executor w1) = true /\ clock w1 == 4 /\
   pause_end_time (executor w1) - clock w1 == 6) /\
  (paused (executor w2) = false /\ clock w2 == 7 /\
   pause_end_time (executor w2) == 7) /\
  sleep always_runnable 5 (10#1) sleeping_world = (Return tt, w2) /\
  clock w2 < 13.
Proof.
  cbv zeta. split; [|split; [|split]].
  - vm_compute. repeat split.
  - vm_compute. repeat split.
  - vm_compute. reflexivity.
  - vm_compute. reflexivity.
Qed.

(** C2, the code at the failing input. Two enabled tasks as BaseTask.__init__
    leaves them; the hook of the first raises a generic exception. The
    except clause fails at [task.error_count += 1] with AttributeError: the
    loop over the tasks ends there, the first task keeps [running] set, has
    no error count and stays the current task, the second task is never
    handed to its hook, and execute ends with the exception; where the claim
    has the count at 1, [running] cleared and the second task dispatched. *)
Theorem task_fault_stops_scheduler :
  faulty_hooks 0 (begin_task 0 0 two_task_world) =
    (Raise (Exception "boom"), faulted_world) /\
  dispatch_tasks always_runnable 5 faulty_hooks [0; 1]%nat (0, 0%nat) two_task_world =
    (Raise (Exception "AttributeError"), faulted_world) /\
  tasks faulted_world =
    [set_last_execute_time (Some 0)
       (set_running true (set_enabled true (new_task "T1")));
     set_enabled true (new_task "T2")] /\
  current_task (executor faulted_world) = Some 0%nat /\
  exists w', execute always_runnable 5 faulty_hooks 3 two_task_world =
               (Raise (Exception "AttributeError"), w') /\
             exit_event (executor w') = false /\
             tasks w' = tasks faulted_world.
Proof.
  split; [reflexivity|]. split; [|split; [reflexivity|split; [reflexivity|]]].
  - exact (task_fault_uncounted always_runnable 5 faulty_hooks 0 [1%nat] 0 0
             two_task_world (set_enabled true (new_task "T1")) "boom" faulted_world
             (set_last_execute_time (Some 0)
                (set_running true (set_enabled true (new_task "T1"))))
             eq_refl eq_refl eq_refl eq_refl eq_refl).
  - exists (snd (execute always_runnable 5 faulty_hooks 3 two_task_world)).
    split; [|split]; vm_compute; reflexivity.
Qed.

(** The same run with tasks that have an error count: the fault is counted,
    the first task stays enabled, [running] and [current_task] are cleared,
    and the second task is handed to its hook. *)
Lemma task_fault_counted_run :
  exists st w',
    dispatch_tasks always_runnable 5 faulty_hooks [0; 1]%nat (0, 0%nat) counted_world =
      (Return st, w') /\
    st.2 = 2%nat /\
    (exists t, tasks w' !! 0%nat = Some t /\ error_count t = Some 1%Z /\
               enabled t = true /\ running t = false) /\
    (exists t, tasks w' !! 1%nat = Some t /\ error_count t = Some 0%Z /\
               last_execute_time t = Some 0) /\
    current_task (executor w') = None.
Proof.
  exists (fst (match dispatch_tasks always_runnable 5 faulty_hooks [0; 1]%nat
                       (0, 0%nat) counted_world with
               | (Return st, w') => (st, w')
               | (_, w') => ((0, 0%nat), w')
               end)),
         (snd (dispatch_tasks always_runnable 5 faulty_hooks [0; 1]%nat
                 (0, 0%nat) counted_world)).
  split; [vm_compute; reflexivity|]. split; [vm_compute; reflexivity|].
  split; [|split].
  - eexists. split; [vm_compute; reflexivity|]. by repeat split.
  - eexists. split; [vm_compute; reflexivity|]. by repeat split.
  - vm_compute. reflexivity.
Qed.



(** C5 on a run: the second task returns 0.6 s after the baseline; the
    dispatch takes a new frame from the feed and moves the baseline to the
    clock. *)
Lemma stale_frame_refreshed_witness :
  exists w', dispatch_task always_runnable 5 faulty_hooks 1 (0, 0%nat) two_task_world =
               (Return (clock w', 1%nat), w') /\
             _frame (executor w') = Some blank_frame /\
             feed w' = [Some blank_frame].
Proof.
  destruct (stale_frame_refreshed always_runnable 5 faulty_hooks 1 0 0 two_task_world
              (set_enabled true (new_task "T2")) (Return tt) late_world
              eq_refl eq_refl eq_refl) as (H1 & _).
  { discriminate. }
  { reflexivity. }
  assert (Hlate : 1#2 < clock (end_task 1 (Return tt) late_world) - 0)
    by (vm_compute; reflexivity).
  exists (snd (next_frame always_runnable 5 (end_task 1 (Return tt) late_world))).
  rewrite (H1 Hlate). split; [|split]; vm_compute; reflexivity.
Defined.


(** C4 on a run: the menu scene is current and matches; the battle scene
    matches too, and is not looked at. *)
Lemma detect_scene_selection_witness :
  detect battle_scene (_frame menu_active_executor) = true /\
  detect_scene None menu_active_executor =
    ((Some menu_scene, [0%nat]), set_current_scene (Some menu_scene) menu_active_executor).
Proof.
  split; [reflexivity|].
  exact (proj1 (detect_scene_selection menu_active_executor) None menu_scene eq_refl eq_refl).
Defined.

(** C10 on a run: the first task is current when the second is disabled. *)
Lemma disable_clears_current_task_witness :
  current_task (executor (begin_task 0 0 two_task_world)) = Some 0%nat /\
  current_task (executor (disable 1 (begin_task 0 0 two_task_world))) = None.
Proof.
  split; [reflexivity|].
  exact (proj1 (disable_clears_current_task 1 (begin_task 0 0 two_task_world))).
Defined.

(** * Further properties on concrete runs *)

(** X1 on a run. *)
Lemma detect_scene_sound_witness :
  detect menu_scene (_frame menu_active_executor) = true /\
  (latest_scene menu_active_executor = Some menu_scene \/
   menu_scene ∈ scenes menu_active_executor).
Proof.
  exact (proj1 (proj2 (detect_scene_sound (Some "BattleScene") menu_active_executor
                         (Some menu_scene) [0%nat]
                         (set_current_scene (Some menu_scene) menu_active_executor)
                         eq_refl))
               menu_scene eq_refl).
Defined.

(** X2 on a run. *)
Lemma detect_scene_sticky_witness :
  detect_scene (Some "BattleScene")
               (set_current_scene (Some battle_scene)
                  (set_frame (Some blank_frame) (new_executor [menu_scene; battle_scene]))) =
    ((Some battle_scene, [1%nat]),
     set_current_scene (Some battle_scene)
       (set_frame (Some blank_frame) (new_executor [menu_scene; battle_scene]))).
Proof.
  exact (detect_scene_sticky (Some "BattleScene") (Some "BattleScene")
           (set_frame (Some blank_frame) (new_executor [menu_scene; battle_scene]))
           battle_scene [1%nat] _ eq_refl).
Defined.

(** X3 on a run. *)
Lemma scene_kept_across_reset_witness :
  fst (fst (detect_scene None (set_frame (Some blank_frame)
                                 (reset_scene menu_active_executor)))) = Some menu_scene.
Proof.
  rewrite (proj1 (scene_kept_across_reset None menu_active_executor (Some blank_frame)
                    menu_scene eq_refl eq_refl)).
  reflexivity.
Defined.

(** X17 on a run. *)
Lemma set_done_until_enable_witness :
  dispatch_task always_runnable 5 faulty_hooks 0 (0, 0%nat) (set_done 0 two_task_world) =
    (Return (0, 0%nat), set_done 0 two_task_world).
Proof.
  exact (proj1 (proj2 (set_done_until_enable always_runnable 5 faulty_hooks 0
                         two_task_world (set_enabled true (new_task "T1")) eq_refl))
               (0, 0%nat)).
Defined.

(** X18 on a run. *)
Lemma enable_after_disable_witness :
  (exists t, tasks noted_world !! 0%nat = Some t /\
             info t !! "count" = Some (InfoInt 2)) /\
  (exists t', tasks (enable 0 (disable 0 noted_world)) !! 0%nat = Some t' /\ info t' = ∅).
Proof.
  split.
  - eexists. split; reflexivity.
  - destruct (proj2 (enable_after_disable 0 noted_world _ eq_refl)) as (t' & Hl & Hi & _).
    exists t'. split; [exact Hl | exact Hi].
Defined.

(** X19 on a run. *)
Lemma status_after_transition_witness :
  get_status <$> tasks (disable 0 two_task_world) !! 0%nat = Some "Not Started" /\
  get_status <$> tasks (enable 0 two_task_world) !! 0%nat = Some "In Queue".
Proof.
  destruct (proj1 (status_after_transition 0 two_task_world
                     (set_enabled true (new_task "T1")) eq_refl) eq_refl)
    as (H1 & _ & H3).
  split; [exact H1 | exact H3].
Defined.

(** X20 on a run. *)
Lemma info_incr_lookup_witness :
  exists w' self',
    info_incr 0 "count" 3 noted_world = (Return tt, w') /\
    tasks w' !! 0%nat = Some self' /\
    info self' !! "count" = Some (InfoInt 5) /\
    info self' !! "Log" = Some (InfoStr "started").
Proof.
  destruct (proj1 (info_incr_lookup 0 "count" 3 noted_world _ eq_refl) 2%Z
              (or_intror eq_refl)) as (w' & self' & Hrun & Hl & Hk & Hother & _).
  exists w', self'. split; [exact Hrun|]. split; [exact Hl|]. split; [exact Hk|].
  rewrite (Hother "Log") by discriminate. reflexivity.
Defined.

(** X22 on a run. *)
Lemma info_add_to_list_appends_witness :
  (exists w' self',
     info_add_to_list 0 "found" (ManyItems ["a"; "b"]) noted_world = (Return tt, w') /\
     tasks w' !! 0%nat = Some self' /\
     info self' !! "found" = Some (InfoList ["a"; "b"])) /\
  info_add_to_list 0 "count" (OneItem "a") noted_world =
    (Raise (Exception "AttributeError"), noted_world).
Proof.
  destruct (info_add_to_list_appends 0 "found" (ManyItems ["a"; "b"]) noted_world _ eq_refl)
    as [Hok _].
  destruct (info_add_to_list_appends 0 "count" (OneItem "a") noted_world _ eq_refl)
    as [_ Hbad].
  split.
  - destruct (Hok [] (or_introl (conj eq_refl eq_refl))) as (w' & self' & H1 & H2 & H3 & _).
    exists w', self'. split; [exact H1|]. split; [exact H2 | exact H3].
  - apply Hbad. left. by exists 2%Z.
Defined.

(** X6 on a run. *)
Lemma sleep_accurate_witness :
  exists w', sleep always_runnable 5 (3#1000) two_task_world = (Return tt, w') /\
    clock two_task_world + (3#1000) <= clock w' /\
    (clock w' == clock two_task_world \/
     clock w' < clock two_task_world + (3#1000) + (1#1000)).
Proof.
  destruct (sleep_accurate always_runnable 5 (3#1000) two_task_world)
    as (w' & Hrun & _ & H1 & _ & H2).
  - reflexivity.
  - repeat split.
  - vm_compute. discriminate.
  - exists w'. split; [exact Hrun|]. split; [exact H1 | exact H2].
Defined.

(** X7 on a run. *)
Lemma sleep_held_while_paused_witness :
  exists w', sleep always_runnable 3 0 fresh_world = (Diverge, w').
Proof.
  apply (sleep_held_while_paused always_runnable 3 0 fresh_world).
  - reflexivity.
  - split; [reflexivity|]. split; [reflexivity|]. by left.
Defined.

(** X8 on a run. *)
Lemma next_frame_result_witness :
  (0 < height blank_frame)%Z /\ (0 < width blank_frame)%Z /\
  Some blank_frame ∈ feed two_task_world.
Proof.
  assert (Hrun : next_frame always_runnable 5 two_task_world =
                 (Return (Some blank_frame), snd (next_frame always_runnable 5 two_task_world)))
    by (vm_compute; reflexivity).
  exact (proj1 (proj2 (next_frame_result always_runnable 5 two_task_world
                         (Some blank_frame) _ Hrun)) blank_frame eq_refl).
Defined.

(** X9 on a run. *)
Lemma next_frame_first_capture_witness :
  exists w', feed w' = [Some blank_frame] /\
    next_frame always_runnable 5 two_task_world = (Return (Some blank_frame), w').
Proof.
  destruct (next_frame_first_capture always_runnable 5 two_task_world blank_frame
              [Some blank_frame] eq_refl eq_refl eq_refl eq_refl)
    as (w' & Hfeed & _ & _ & Hcap).
  exists w'. split; [exact Hfeed|]. exact (proj1 Hcap).
Defined.

(** X13 on a run: two tasks whose hooks return; the GUI stops the executor
    during the sleep that ends the first cycle. *)
Lemma execute_ends_on_exit_witness :
  exit_event (executor (snd (execute always_runnable 5 steady_hooks 3 stopping_world))) = true.
Proof.
  assert (Hrun : execute always_runnable 5 steady_hooks 3 stopping_world =
                 (Return tt, snd (execute always_runnable 5 steady_hooks 3 stopping_world)))
    by (vm_compute; reflexivity).
  exact (execute_ends_on_exit always_runnable 5 steady_hooks 3 stopping_world _ Hrun).
Defined.

(** X14 on a run. *)
Lemma dispatch_nothing_eligible_witness :
  dispatch_tasks always_runnable 5 faulty_hooks [0; 1]%nat (0, 0%nat) fresh_world =
    (Return (0, 0%nat), fresh_world).
Proof.
  apply dispatch_nothing_eligible.
  intros [|[|i]] t _ Hl; vm_compute in Hl; try discriminate;
    injection Hl as <-; reflexivity.
Defined.

(** X15 on a run. *)
Lemma pause_then_start_witness :
  let w1 := set_clock (clock two_task_world + 3) (pause two_task_world) in
  pause_end_time (executor (start always_runnable w1).2) ==
    pause_end_time (executor two_task_world) - 3.
Proof.
  cbv zeta.
  exact (proj1 (proj2 (proj2 (proj2 (proj2
           (pause_then_start always_runnable two_task_world 3 eq_refl)))))).
Defined.

(** X16 on a run. *)
Lemma start_refused_witness :
  start never_runnable fresh_world = (false, fresh_world) /\
  paused (executor (unpause never_runnable 0 fresh_world)) = true.
Proof.
  destruct (start_refused never_runnable fresh_world 0 eq_refl) as [H1 H2].
  split; [exact H1|]. destruct (H2 eq_refl) as [-> _]. reflexivity.
Defined.

(** X5 on a run. *)
Lemma wait_condition_cancelled_witness :
  fst (wait_scene always_runnable 5 None 0 None None (stop scene_world)) = Return None.
Proof.
  unfold wait_scene.
  rewrite (wait_condition_cancelled always_runnable 5 (detect_scene_call None) 0
             None None (stop scene_world) eq_refl).
  reflexivity.
Defined.

(** X4 on a run. *)
Lemma wait_scene_filtered_witness :
  fst (wait_scene always_runnable 5 (Some "BattleScene") 0 None None scene_world) =
    Return (Some battle_scene) /\
  isinstance battle_scene "BattleScene" = true.
Proof.
  assert (Hrun : wait_scene always_runnable 5 (Some "BattleScene") 0 None None scene_world =
                 (Return (Some battle_scene),
                  snd (wait_scene always_runnable 5 (Some "BattleScene") 0 None None
                                  scene_world)))
    by (vm_compute; reflexivity).
  split; [by rewrite Hrun|].
  exact (wait_scene_filtered always_runnable 5 "BattleScene" 0 None scene_world
           battle_scene _ Hrun).
Defined.

(** X10 on a run. *)
Lemma next_frame_times_out_witness :
  exists w', next_frame always_runnable 5 blind_world = (Return None, w') /\
    wait_scene_timeout (executor blind_world) < clock w' - clock blind_world.
Proof.
  destruct (next_frame_times_out always_runnable 5 blind_world)
    as (w' & Hrun & Hlate & _).
  - reflexivity.
  - repeat split.
  - reflexivity.
  - apply Nat.leb_le. reflexivity.
  - vm_compute. reflexivity.
  - exists w'. split; [exact Hrun | exact Hlate].
Defined.

(** X11 on a run. *)
Lemma next_frame_held_without_capture_witness :
  exists w', next_frame always_runnable 5 minimized_world = (Diverge, w').
Proof.
  apply (next_frame_held_without_capture always_runnable 5 minimized_world);
    reflexivity.
Defined.
